(** * easy2fa: the TwoFactorAuth class of [index.js], embedded in Rocq

    The class has four methods: [generateSecretKey], [generateOTP],
    [verifyOTP] and [generateOtpauthURL].  They are translated here statement
    by statement into functions over a small model of the JavaScript values
    and Node.js library calls they use:

    - a method either returns a value or throws: results live in the
      completion type [JS];
    - numbers are the integer-valued doubles the code manipulates, together
      with the non-finite values a division can produce; the bit operators
      go through ToInt32 as ECMAScript prescribes;
    - strings are sequences of UTF-16 code units;
    - a [Buffer] is a list of bytes, read and written by index;
    - a declared variable is a [binding] that remembers whether it was
      introduced by [const] or by [let];
    - the clock ([Date.now]) and the entropy behind [crypto.randomInt] are
      explicit arguments. *)

From Stdlib Require Import ZArith List String Ascii Lia Bool.
From stdpp Require Import base numbers list.
From Equations Require Import Equations.
Import ListNotations.
Open Scope Z_scope.

(** ** Completions: a call returns or throws *)

Inductive error : Type :=
| TypeError_AssignmentToConstant
    (* "TypeError: Assignment to constant variable." *)
| TypeError_UnknownEncoding (encoding : string)
    (* "TypeError [ERR_UNKNOWN_ENCODING]: Unknown encoding: ..." *)
| URIError_Malformed.
    (* "URIError: URI malformed" *)

Inductive JS (A : Type) : Type :=
| Ok (a : A)
| Throw (e : error).
Arguments Ok {A} a.
Arguments Throw {A} e.

Global Instance JS_ret : MRet JS := fun A a => Ok a.

(** Sequencing: a throw abandons the rest of the statements. *)
Global Instance JS_bind : MBind JS := fun A B k c =>
  match c with
  | Ok a => k a
  | Throw e => Throw e
  end.

Definition throws {A : Type} (c : JS A) : Prop := exists e, c = Throw e.

(** ** Numbers *)

(** The numbers of this program are integers (counters, bytes, indices) and,
    when [timeStep] is 0, the result of a division by zero. *)
Inductive number : Type :=
| Num (z : Z)
| Infinity
| NegInfinity
| NaN.

Definition two32 : Z := 2 ^ 32.
Definition two31 : Z := 2 ^ 31.

(** The signed 32-bit integer congruent to [z] modulo 2^32. *)
Definition wrap32 (z : Z) : Z := (z + two31) mod two32 - two31.

(** ECMAScript ToInt32: non-finite numbers become 0. *)
Definition ToInt32 (n : number) : Z :=
  match n with
  | Num z => wrap32 z
  | _ => 0
  end.

(** [a & b], [a | b], [a << k], [a >> k]: both operands go through ToInt32,
    the shift count is taken modulo 32, and [<<] wraps its result. *)
Definition bitand (a b : number) : number := Num (Z.land (ToInt32 a) (ToInt32 b)).
Definition bitor (a b : number) : number := Num (Z.lor (ToInt32 a) (ToInt32 b)).
Definition shl (a k : number) : number :=
  Num (wrap32 (Z.shiftl (ToInt32 a) (ToInt32 k mod 32))).
Definition sar (a k : number) : number :=
  Num (Z.shiftr (ToInt32 a) (ToInt32 k mod 32)).

(** [a + b] on numbers. *)
Definition add (a b : number) : number :=
  match a, b with
  | Num x, Num y => Num (x + y)
  | NaN, _ | _, NaN => NaN
  | Infinity, NegInfinity | NegInfinity, Infinity => NaN
  | Infinity, _ | _, Infinity => Infinity
  | NegInfinity, _ | _, NegInfinity => NegInfinity
  end.

(** [a % b]: the remainder has the sign of the dividend. *)
Definition rem (a b : number) : number :=
  match a, b with
  | Num x, Num y => if y =? 0 then NaN else Num (Z.rem x y)
  | Num x, (Infinity | NegInfinity) => Num x
  | _, _ => NaN
  end.

(** [Math.floor(now / 1000 / timeStep)] for an integer clock reading [now]
    (milliseconds) and an integer [timeStep]; the quotient is taken exactly. *)
Definition floor_div_1000 (now timeStep : Z) : number :=
  if timeStep =? 0 then
    (if 0 <? now then Infinity else if now <? 0 then NegInfinity else NaN)
  else Num (now / (1000 * timeStep)).

(** ** Strings *)

(** A string is its sequence of UTF-16 code units. *)
Abbreviation jsstring := (list Z) (only parsing).

Definition code (c : ascii) : Z := Z.of_N (N_of_ascii c).

(** A literal of the source. *)
Definition lit (s : string) : jsstring := map code (list_ascii_of_string s).

Definition jsstring_eqb (s t : jsstring) : bool :=
  bool_decide (s = t).

(** [s[i]] as used on the right of [+=]: a one-character string, or the
    text of [undefined] when [i] is not an index of [s]. *)
Definition charAt_or_undefined (s : jsstring) (i : Z) : jsstring :=
  if i <? 0 then lit "undefined"
  else match s !! Z.to_nat i with
       | Some c => [c]
       | None => lit "undefined"
       end.

(** Decimal digits of a positive integer, most significant first. *)
Equations? digits (n : Z) (acc : jsstring) : jsstring by wf (Z.to_nat n) lt :=
  digits n acc with Z_lt_dec 0 n => {
    | left _ := digits (n / 10) (code "0" + n mod 10 :: acc);
    | right _ := acc }.
Proof. assert (n / 10 < n) by (apply Z.div_lt; lia). lia. Qed.

(** [Number.prototype.toString] (radix 10). *)
Definition toString (n : number) : jsstring :=
  match n with
  | Num 0 => lit "0"
  | Num (Zpos p) => digits (Zpos p) []
  | Num (Zneg p) => code "-" :: digits (Zpos p) []
  | Infinity => lit "Infinity"
  | NegInfinity => lit "-Infinity"
  | NaN => lit "NaN"
  end.

(** [s.padStart(targetLength, fill)] for a one-character [fill]. *)
Definition padStart (s : jsstring) (targetLength : Z) (fill : Z) : jsstring :=
  replicate (Z.to_nat (targetLength - Z.of_nat (length s))) fill ++ s.

(** ** Variables *)

Inductive declaration : Type := Const | Let.

Record binding : Type := Binding { kind : declaration; value : number }.

(** Assignment to a declared variable ([x = v], [x >>= k], ...).  A [const]
    declaration creates an immutable binding, and ECMAScript's
    SetMutableBinding throws a TypeError for it when the assignment is
    executed; nothing is reported before the statement runs. *)
Definition assign (x : binding) (v : number) : JS binding :=
  match kind x with
  | Let => Ok (Binding Let v)
  | Const => Throw TypeError_AssignmentToConstant
  end.

(** ** Buffers *)

(** A [Buffer] is a sequence of bytes, each in 0..255. *)
Abbreviation Buffer := (list Z) (only parsing).

Definition is_byte (b : Z) : Prop := 0 <= b < 256.

(** [Buffer.alloc(size)]: zero-filled. *)
Definition Buffer_alloc (size : nat) : Buffer := replicate size 0.

(** Conversion of a stored value to an unsigned byte. *)
Definition ToUint8 (n : number) : Z :=
  match n with
  | Num z => z mod 256
  | _ => 0
  end.

(** [buffer[i] = v]: a write outside the buffer is dropped. *)
Definition Buffer_set (buffer : Buffer) (i : Z) (v : number) : Buffer :=
  if i <? 0 then buffer else <[Z.to_nat i := ToUint8 v]> buffer.

(** [buffer[i]]: outside the buffer the read gives [undefined], which the
    bit operators this program applies to it turn into NaN and then 0. *)
Definition Buffer_get (buffer : Buffer) (i : number) : number :=
  match i with
  | Num z =>
      if z <? 0 then NaN
      else match buffer !! Z.to_nat z with
           | Some b => Num b
           | None => NaN
           end
  | _ => NaN
  end.

(** *** String encodings known to [Buffer] *)

Inductive encoding : Type :=
| Utf8 | Utf16le | Latin1 | Ascii | Base64 | Base64url | Hex.

Definition lower (c : ascii) : ascii :=
  let n := N_of_ascii c in
  if ((65 <=? n) && (n <=? 90))%N then ascii_of_N (n + 32) else c.

Definition toLowerCase (s : string) : string :=
  string_of_list_ascii (map lower (list_ascii_of_string s)).

(** Resolution of an encoding name, case-insensitive.  These are all the
    names Node.js accepts; ["base32"] is not among them. *)
Definition getEncodingOps (name : string) : option encoding :=
  let n := toLowerCase name in
  if (String.eqb n "utf8" || String.eqb n "utf-8")%bool then Some Utf8
  else if (String.eqb n "ucs2" || String.eqb n "ucs-2" ||
           String.eqb n "utf16le" || String.eqb n "utf-16le")%bool then Some Utf16le
  else if (String.eqb n "latin1" || String.eqb n "binary")%bool then Some Latin1
  else if String.eqb n "ascii" then Some Ascii
  else if String.eqb n "base64" then Some Base64
  else if String.eqb n "base64url" then Some Base64url
  else if String.eqb n "hex" then Some Hex
  else None.

(** UTF-8 octets of a code point. *)
Definition utf8_octets (cp : Z) : list Z :=
  if cp <? 128 then [cp]
  else if cp <? 2048 then [192 + cp / 64; 128 + cp mod 64]
  else if cp <? 65536 then
    [224 + cp / 4096; 128 + (cp / 64) mod 64; 128 + cp mod 64]
  else
    [240 + cp / 262144; 128 + (cp / 4096) mod 64;
     128 + (cp / 64) mod 64; 128 + cp mod 64].

Definition is_high_surrogate (c : Z) : bool := (55296 <=? c) && (c <=? 56319).
Definition is_low_surrogate (c : Z) : bool := (56320 <=? c) && (c <=? 57343).
Definition surrogate_pair (hi lo : Z) : Z :=
  65536 + (hi - 55296) * 1024 + (lo - 56320).

(** UTF-8 transcoding; an unpaired surrogate becomes U+FFFD. *)
Fixpoint utf8Write (s : jsstring) : Buffer :=
  match s with
  | [] => []
  | c :: rest =>
      if is_high_surrogate c then
        match rest with
        | d :: rest' =>
            if is_low_surrogate d
            then utf8_octets (surrogate_pair c d) ++ utf8Write rest'
            else utf8_octets 65533 ++ utf8Write rest
        | [] => utf8_octets 65533
        end
      else if is_low_surrogate c then utf8_octets 65533 ++ utf8Write rest
      else utf8_octets c ++ utf8Write rest
  end.

Definition utf16leWrite (s : jsstring) : Buffer :=
  flat_map (fun c => [c mod 256; (c / 256) mod 256]) s.

Definition latin1Write (s : jsstring) : Buffer := map (fun c => c mod 256) s.

Definition hex_value (c : Z) : option Z :=
  if (48 <=? c) && (c <=? 57) then Some (c - 48)
  else if (65 <=? c) && (c <=? 70) then Some (c - 55)
  else if (97 <=? c) && (c <=? 102) then Some (c - 87)
  else None.

(** Hex decoding stops at the first pair that is not two hex digits. *)
Fixpoint hexWrite (s : jsstring) : Buffer :=
  match s with
  | a :: (b :: rest) =>
      match hex_value a, hex_value b with
      | Some x, Some y => 16 * x + y :: hexWrite rest
      | _, _ => []
      end
  | _ => []
  end.

Definition base64_value (c : Z) : option Z :=
  if (65 <=? c) && (c <=? 90) then Some (c - 65)
  else if (97 <=? c) && (c <=? 122) then Some (c - 71)
  else if (48 <=? c) && (c <=? 57) then Some (c + 4)
  else if (c =? 43) || (c =? 45) then Some 62
  else if (c =? 47) || (c =? 95) then Some 63
  else None.

(** The sextets of a base64 text: characters outside the alphabet are
    skipped and [=] ends the data. *)
Fixpoint base64_sextets (s : jsstring) : list Z :=
  match s with
  | [] => []
  | c :: rest =>
      if c =? 61 then []
      else match base64_value c with
           | Some v => v :: base64_sextets rest
           | None => base64_sextets rest
           end
  end.

Fixpoint base64_octets (v : list Z) : Buffer :=
  match v with
  | a :: b :: c :: d :: rest =>
      [4 * a + b / 16; (16 * b) mod 256 + c / 4; (64 * c) mod 256 + d]
        ++ base64_octets rest
  | [a; b; c] => [4 * a + b / 16; (16 * b) mod 256 + c / 4]
  | [a; b] => [4 * a + b / 16]
  | _ => []
  end.

Definition base64Write (s : jsstring) : Buffer :=
  base64_octets (base64_sextets s).

Definition encodingWrite (enc : encoding) : jsstring -> Buffer :=
  match enc with
  | Utf8 => utf8Write
  | Utf16le => utf16leWrite
  | Latin1 | Ascii => latin1Write
  | Base64 | Base64url => base64Write
  | Hex => hexWrite
  end.

(** [Buffer.from(string, encoding)]: the string is transcoded by the named
    encoding; a name that does not resolve makes the call throw
    ERR_UNKNOWN_ENCODING, whatever the string. *)
Definition Buffer_from (s : jsstring) (name : string) : JS Buffer :=
  match getEncodingOps name with
  | Some enc => Ok (encodingWrite enc s)
  | None => Throw (TypeError_UnknownEncoding name)
  end.

(** ** HMAC-SHA1, as [crypto.createHmac('sha1', key)] computes it *)

Module SHA1.

Definition add32 (x y : Z) : Z := (x + y) mod two32.

Definition rotl (n x : Z) : Z :=
  Z.lor (Z.shiftl x n mod two32) (Z.shiftr x (32 - n)).

Definition not32 (x : Z) : Z := Z.lxor x (two32 - 1).

(** Round function and constant of round [t]. *)
Definition f (t : nat) (b c d : Z) : Z :=
  if (t <? 20)%nat then Z.lor (Z.land b c) (Z.land (not32 b) d)
  else if (t <? 40)%nat then Z.lxor (Z.lxor b c) d
  else if (t <? 60)%nat then
    Z.lor (Z.lor (Z.land b c) (Z.land b d)) (Z.land c d)
  else Z.lxor (Z.lxor b c) d.

Definition K (t : nat) : Z :=
  if (t <? 20)%nat then 0x5A827999
  else if (t <? 40)%nat then 0x6ED9EBA1
  else if (t <? 60)%nat then 0x8F1BBCDC
  else 0xCA62C1D6.

(** Big-endian bytes of a [width]-byte word. *)
Fixpoint be_bytes (width : nat) (x : Z) : list Z :=
  match width with
  | O => []
  | S w => (x / 256 ^ Z.of_nat w) mod 256 :: be_bytes w x
  end.

Definition be_word (bs : list Z) : Z :=
  fold_left (fun acc b => 256 * acc + b) bs 0.

(** Message padding: a 1 bit, zeros, and the bit length on 8 bytes. *)
Definition pad (msg : list Z) : list Z :=
  let len := Z.of_nat (length msg) in
  let zeros := Z.to_nat ((55 - len) mod 64) in
  msg ++ [128] ++ replicate zeros 0 ++ be_bytes 8 (8 * len).

Fixpoint chunks (n : nat) (size : nat) (l : list Z) : list (list Z) :=
  match n with
  | O => []
  | S n' => take size l :: chunks n' size (drop size l)
  end.

Definition blocks (padded : list Z) : list (list Z) :=
  chunks (length padded / 64) 64 padded.

Definition words (block : list Z) : list Z :=
  map be_word (chunks 16 4 block).

(** Message schedule: 80 words, each new one from four earlier ones. *)
Definition schedule (block : list Z) : list Z :=
  fold_left
    (fun w t =>
       w ++ [rotl 1 (Z.lxor (Z.lxor (Z.lxor (w !!! (t - 3)%nat) (w !!! (t - 8)%nat))
                                    (w !!! (t - 14)%nat)) (w !!! (t - 16)%nat))])
    (seq 16 64) (words block).

Definition state : Type := (Z * Z * Z * Z * Z)%type.

Definition round (s : state) (tw : nat * Z) : state :=
  let '(a, b, c, d, e) := s in
  let '(t, w) := tw in
  (add32 (add32 (add32 (add32 (rotl 5 a) (f t b c d)) e) (K t)) w,
   a, rotl 30 b, c, d).

Definition compress (h : state) (block : list Z) : state :=
  let '(h0, h1, h2, h3, h4) := h in
  let '(a, b, c, d, e) :=
    fold_left round (combine (seq 0 80) (schedule block)) h in
  (add32 h0 a, add32 h1 b, add32 h2 c, add32 h3 d, add32 h4 e).

Definition init : state :=
  (0x67452301, 0xEFCDAB89, 0x98BADCFE, 0x10325476, 0xC3D2E1F0).

Definition digest (msg : list Z) : list Z :=
  let '(h0, h1, h2, h3, h4) := fold_left compress (blocks (pad msg)) init in
  be_bytes 4 h0 ++ be_bytes 4 h1 ++ be_bytes 4 h2 ++ be_bytes 4 h3 ++ be_bytes 4 h4.

End SHA1.

(** [crypto.createHmac('sha1', key).update(message).digest()] *)
Definition createHmac_sha1 (key message : Buffer) : Buffer :=
  let key0 := if (64 <? length key)%nat then SHA1.digest key else key in
  let block := key0 ++ replicate (64 - length key0) 0 in
  let ipad := map (fun b => Z.lxor b 0x36) block in
  let opad := map (fun b => Z.lxor b 0x5c) block in
  SHA1.digest (opad ++ SHA1.digest (ipad ++ message)).

(** ** Library calls with an ambient source *)

(** The entropy behind [crypto.randomInt]: the raw draws still to come. *)
Definition rng : Type := nat -> Z.

(** [crypto.randomInt(min, max)]: a draw reduced into [min, max), and the
    source advanced by one draw. *)
Definition randomInt (g : rng) (min max : Z) : Z * rng :=
  (min + g 0%nat mod (max - min), fun n => g (S n)).

(** [encodeURIComponent] leaves these characters as they are. *)
Definition uriUnescaped (c : Z) : bool :=
  ((65 <=? c) && (c <=? 90)) || ((97 <=? c) && (c <=? 122)) ||
  ((48 <=? c) && (c <=? 57)) || bool_decide (c ∈ lit "-_.!~*'()").

Definition hexDigit (n : Z) : Z := lit "0123456789ABCDEF" !!! Z.to_nat n.

Definition percentEscape (octet : Z) : jsstring :=
  [code "%"; hexDigit (octet / 16); hexDigit (octet mod 16)].

(** [encodeURIComponent(s)]: every other code point is replaced by the
    escapes of its UTF-8 octets; a surrogate without its partner throws. *)
Fixpoint encodeURIComponent (s : jsstring) : JS jsstring :=
  match s with
  | [] => Ok []
  | c :: rest =>
      if uriUnescaped c then
        r ← encodeURIComponent rest; Ok (c :: r)
      else if is_low_surrogate c then Throw URIError_Malformed
      else if is_high_surrogate c then
        match rest with
        | d :: rest' =>
            if is_low_surrogate d then
              r ← encodeURIComponent rest';
              Ok (flat_map percentEscape (utf8_octets (surrogate_pair c d)) ++ r)
            else Throw URIError_Malformed
        | [] => Throw URIError_Malformed
        end
      else
        r ← encodeURIComponent rest;
        Ok (flat_map percentEscape (utf8_octets c) ++ r)
  end.

(** ** The class TwoFactorAuth *)

(** An optional parameter: [None] when the caller leaves it out. *)
Definition optional (A : Type) : Type := option A.

(** *** generateSecretKey (lines 13-21) *)

Definition chars : jsstring := lit "ABCDEFGHIJKLMNOPQRSTUVWXYZ234567".

(** The loop of lines 16-19, entered with the current [i] and [secret]. *)
Equations? generateSecretKey_loop (g : rng) (len : Z) (i : Z) (secret : jsstring)
  : jsstring by wf (Z.to_nat (len - i)) lt :=
  generateSecretKey_loop g len i secret with Z_lt_dec i len => {
    | left _ :=
        let '(randomIndex, g') := randomInt g 0 (Z.of_nat (length chars)) in
        generateSecretKey_loop g' len (i + 1)
          (secret ++ charAt_or_undefined chars randomIndex);
    | right _ := secret }.
Proof. lia. Qed.

Definition generateSecretKey (g : rng) (length : optional Z) : JS jsstring :=
  let length := default 20 length in
  Ok (generateSecretKey_loop g length 0 []).

(** *** The statements shared by generateOTP and verifyOTP *)

(** The loop of lines 35-38, which lines 68-71 repeat verbatim:
    [for (let i = 7; i >= 0; i--) { buffer[i] = time & 0xff; time >>= 8; }]
    entered with the current [i].  It gives back the buffer and the
    variable [time] as the loop leaves them. *)
Equations? pack_loop (i : Z) (buffer : Buffer) (time : binding)
  : JS (Buffer * binding) by wf (Z.to_nat (i + 1)) lt :=
  pack_loop i buffer time with Z_le_dec 0 i => {
    | left _ :=
        let buffer' := Buffer_set buffer i (bitand (value time) (Num 0xff)) in
        match assign time (sar (value time) (Num 8)) with
        | Ok time' => pack_loop (i - 1) buffer' time'
        | Throw e => Throw e
        end;
    | right _ := Ok (buffer, time) }.
Proof. lia. Qed.

(** Lines 41-47, which lines 75-81 repeat verbatim: the offset taken from
    the last byte of the digest, and the four bytes found there combined
    and reduced. *)
Definition truncate (hmac : Buffer) : number :=
  let offset := bitand (Buffer_get hmac (Num 19)) (Num 0xf) in
  rem
    (bitor
       (bitor
          (bitor
             (shl (bitand (Buffer_get hmac offset) (Num 0x7f)) (Num 24))
             (shl (bitand (Buffer_get hmac (add offset (Num 1))) (Num 0xff)) (Num 16)))
          (shl (bitand (Buffer_get hmac (add offset (Num 2))) (Num 0xff)) (Num 8)))
       (bitand (Buffer_get hmac (add offset (Num 3))) (Num 0xff)))
    (Num 1000000).

(** [otp.toString().padStart(6, '0')] of lines 49 and 83. *)
Definition sixDigits (otp : number) : jsstring :=
  padStart (toString otp) 6 (code "0").

(** *** generateOTP (lines 30-50) *)

Definition generateOTP (now : Z) (secret : jsstring) (timeStep : optional Z)
  : JS jsstring :=
  let timeStep := default 30 timeStep in
  let time := Binding Const (floor_div_1000 now timeStep) in
  key ← Buffer_from secret "base32";
  let buffer := Buffer_alloc 8 in
  '(buffer, time) ← pack_loop 7 buffer time;
  let hmac := createHmac_sha1 key buffer in
  let otp := truncate hmac in
  Ok (sixDigits otp).

(** *** verifyOTP (lines 60-88) *)

(** Lines 65-82: the code of one candidate counter. *)
Definition verifyOTP_candidate (secret : jsstring) (currentTime : number)
  (errorWindow : Z) : JS jsstring :=
  let time := Binding Const (add currentTime (Num errorWindow)) in
  let buffer := Buffer_alloc 8 in
  '(buffer, time) ← pack_loop 7 buffer time;
  key ← Buffer_from secret "base32";
  let hmac := createHmac_sha1 key buffer in
  let otp := truncate hmac in
  Ok (sixDigits otp).

(** The loop of lines 64-86, entered with the current [errorWindow]. *)
Equations? verifyOTP_loop (secret token : jsstring) (currentTime : number)
  (window : Z) (errorWindow : Z) : JS bool
  by wf (Z.to_nat (window - errorWindow + 1)) lt :=
  verifyOTP_loop secret token currentTime window errorWindow
    with Z_le_dec errorWindow window => {
    | left _ :=
        match verifyOTP_candidate secret currentTime errorWindow with
        | Ok candidate =>
            if jsstring_eqb candidate token then Ok true
            else verifyOTP_loop secret token currentTime window (errorWindow + 1)
        | Throw e => Throw e
        end;
    | right _ := Ok false }.
Proof. lia. Qed.

Definition verifyOTP (now : Z) (secret token : jsstring) (window : optional Z)
  : JS bool :=
  let window := default 1 window in
  let timeStep := 30 in
  let currentTime := floor_div_1000 now timeStep in
  verifyOTP_loop secret token currentTime window (- window).

(** *** generateOtpauthURL (lines 98-108) *)

Definition generateOtpauthURL (secret : jsstring)
  (accountName issuer : optional jsstring) : JS jsstring :=
  let accountName := default (lit "user@example.com") accountName in
  let issuer := default (lit "MyApp") issuer in
  i1 ← encodeURIComponent issuer;
  a ← encodeURIComponent accountName;
  i2 ← encodeURIComponent issuer;
  Ok (lit "otpauth://totp/" ++ i1 ++ lit ":" ++ a ++ lit "?secret=" ++ secret
        ++ lit "&issuer=" ++ i2).

(** ** Vocabulary of the properties *)

Definition is_digit (c : Z) : Prop := 48 <= c <= 57.

(** The number a string of decimal digits denotes. *)
Definition decimal_value (s : jsstring) : Z :=
  fold_left (fun a c => 10 * a + (c - 48)) s 0.

(** The number RFC 4226 extracts from a 20-byte digest: the low four bits
    of the last byte choose four bytes, read big-endian with the top bit
    of the first one dropped. *)
Definition truncated31 (hmac : Buffer) : Z :=
  let offset := Z.to_nat ((hmac !!! 19%nat) mod 16) in
  (hmac !!! offset) mod 128 * 2 ^ 24
  + hmac !!! (offset + 1)%nat * 2 ^ 16
  + hmac !!! (offset + 2)%nat * 2 ^ 8
  + hmac !!! (offset + 3)%nat.

Definition in_alphabet (c : Z) : Prop := c ∈ chars.

(** [String.prototype.isWellFormed]: every surrogate has its partner. *)
Fixpoint isWellFormed (s : jsstring) : bool :=
  match s with
  | [] => true
  | c :: rest =>
      if is_high_surrogate c then
        match rest with
        | d :: rest' => is_low_surrogate d && isWellFormed rest'
        | [] => false
        end
      else negb (is_low_surrogate c) && isWellFormed rest
  end.

(** What may appear in an encoded component: the characters left as they
    are and the percent sign.  None of [: / ? & =] is among them. *)
Definition uri_safe (c : Z) : Prop := uriUnescaped c = true \/ c = code "%".

Definition is_code_unit (c : Z) : Prop := 0 <= c < 65536.

(** The shared secret of the RFC 6238 test vectors: the Base32 text of the
    ASCII bytes "12345678901234567890". *)
Definition rfc6238_secret : jsstring := lit "GEZDGNBVGY3TQOJQGEZDGNBVGY3TQOJQ".

(** The characters the first [n] draws of a source select. *)
Fixpoint drawn_characters (g : rng) (n : nat) : jsstring :=
  match n with
  | O => []
  | S m => chars !!! Z.to_nat (g 0%nat mod 32)
             :: drawn_characters (fun k => g (S k)) m
  end.

Definition is_unescaped (c : Z) : Prop := uriUnescaped c = true.

(** The code points of a string read as UTF-16; none when a surrogate
    lacks its partner. *)
Fixpoint codePoints (s : jsstring) : option (list Z) :=
  match s with
  | [] => Some []
  | c :: rest =>
      if is_high_surrogate c then
        match rest with
        | d :: rest' =>
            if is_low_surrogate d
            then cons (surrogate_pair c d) <$> codePoints rest'
            else None
        | [] => None
        end
      else if is_low_surrogate c then None
      else cons c <$> codePoints rest
  end.

(** The code units of a code point. *)
Definition codeUnits (cp : Z) : jsstring :=
  if cp <? 65536 then [cp]
  else [55296 + (cp - 65536) / 1024; 56320 + (cp - 65536) mod 1024].

(** What [encodeURIComponent] writes for one code point. *)
Definition escapeCodePoint (cp : Z) : jsstring :=
  if uriUnescaped cp then [cp] else flat_map percentEscape (utf8_octets cp).

Definition is_code_point (cp : Z) : Prop := 0 <= cp < 1114112.

(** Percent-encoding of a URI component, on the code points of the text:
    a letter, a digit or one of [- _ . ! ~ * ' ( )] stays as it is, every
    other code point becomes the [%XX] escapes of its UTF-8 octets. *)
Definition percentEncode (cps : list Z) : jsstring :=
  flat_map escapeCodePoint cps.

(** * Properties *)

(** ** The model on known values *)

Example toString_ex : toString (Num 7082) = lit "7082".
Proof. reflexivity. Qed.

Example padStart_ex : padStart (toString (Num 7082)) 6 (code "0") = lit "007082".
Proof. reflexivity. Qed.

Example Buffer_from_hex_ex : Buffer_from (lit "1aFfg0") "HEX" = Ok [26; 255].
Proof. reflexivity. Qed.

Example Buffer_from_base64_ex : Buffer_from (lit "SGVsbG8=") "base64" = Ok (lit "Hello").
Proof. reflexivity. Qed.

Example Buffer_from_utf8_ex : Buffer_from [233; 8364] "utf8" = Ok [195; 169; 226; 130; 172].
Proof. reflexivity. Qed.

(** FIPS 180 sample: SHA-1 of "abc". *)
Example sha1_abc :
  SHA1.digest (lit "abc")
  = [0xa9; 0x99; 0x3e; 0x36; 0x47; 0x06; 0x81; 0x6a; 0xba; 0x3e;
     0x25; 0x71; 0x78; 0x50; 0xc2; 0x6c; 0x9c; 0xd0; 0xd8; 0x9d].
Proof. vm_compute. reflexivity. Qed.

(** RFC 2202, test case 2. *)
Example hmac_sha1_rfc2202 :
  createHmac_sha1 (lit "Jefe") (lit "what do ya want for nothing?")
  = [0xef; 0xfc; 0xdf; 0x6a; 0xe5; 0xeb; 0x2f; 0xa2; 0xd2; 0x74;
     0x16; 0xd5; 0xf1; 0x84; 0xdf; 0x9c; 0x25; 0x9a; 0x7c; 0x79].
Proof. vm_compute. reflexivity. Qed.

Example encodeURIComponent_ex :
  encodeURIComponent (lit "user@example.com") = Ok (lit "user%40example.com").
Proof. vm_compute. reflexivity. Qed.

Example generateSecretKey_ex :
  generateSecretKey (fun n => 7 * Z.of_nat n + 3) (Some 5) = Ok (lit "DKRY7").
Proof. vm_compute. reflexivity. Qed.

(** ** The two statements that stop generateOTP and verifyOTP *)

(** [Buffer.from(secret, 'base32')] throws whatever the secret is. *)
Lemma Buffer_from_base32 (secret : jsstring) :
  Buffer_from secret "base32" = Throw (TypeError_UnknownEncoding "base32").
Proof. reflexivity. Qed.

(** With [time] declared [const], the first [time >>= 8] throws. *)
Lemma pack_loop_const (i : Z) (buffer : Buffer) (v : number) :
  0 <= i ->
  pack_loop i buffer (Binding Const v) = Throw TypeError_AssignmentToConstant.
Proof.
  intros Hi. simp pack_loop.
  destruct (Z_le_dec 0 i); [reflexivity | lia].
Qed.

Lemma generateOTP_throws (now : Z) (secret : jsstring) (timeStep : optional Z) :
  generateOTP now secret timeStep = Throw (TypeError_UnknownEncoding "base32").
Proof. reflexivity. Qed.

Lemma verifyOTP_candidate_throws (secret : jsstring) (currentTime : number)
  (errorWindow : Z) :
  verifyOTP_candidate secret currentTime errorWindow
  = Throw TypeError_AssignmentToConstant.
Proof.
  unfold verifyOTP_candidate. rewrite pack_loop_const by lia. reflexivity.
Qed.

Lemma verifyOTP_loop_enter (secret token : jsstring) (currentTime : number)
  (window errorWindow : Z) :
  errorWindow <= window ->
  verifyOTP_loop secret token currentTime window errorWindow
  = Throw TypeError_AssignmentToConstant.
Proof.
  intros H. simp verifyOTP_loop.
  destruct (Z_le_dec errorWindow window); [| lia].
  cbn. rewrite verifyOTP_candidate_throws. reflexivity.
Qed.

Lemma verifyOTP_loop_skip (secret token : jsstring) (currentTime : number)
  (window errorWindow : Z) :
  window < errorWindow ->
  verifyOTP_loop secret token currentTime window errorWindow = Ok false.
Proof.
  intros H. simp verifyOTP_loop.
  destruct (Z_le_dec errorWindow window); [lia | reflexivity].
Qed.

Lemma verifyOTP_nonneg_window (now : Z) (secret token : jsstring) (window : Z) :
  0 <= window ->
  verifyOTP now secret token (Some window) = Throw TypeError_AssignmentToConstant.
Proof. intros H. unfold verifyOTP. cbn. apply verifyOTP_loop_enter. lia. Qed.

Lemma verifyOTP_default_window (now : Z) (secret token : jsstring) :
  verifyOTP now secret token None = Throw TypeError_AssignmentToConstant.
Proof. unfold verifyOTP. cbn. apply verifyOTP_loop_enter. lia. Qed.

Lemma verifyOTP_negative_window (now : Z) (secret token : jsstring) (window : Z) :
  window < 0 ->
  verifyOTP now secret token (Some window) = Ok false.
Proof. intros H. unfold verifyOTP. cbn. apply verifyOTP_loop_skip. lia. Qed.

(** Every outcome of verifyOTP: [false] when the loop is not entered, a
    throw otherwise.  It never answers [true]. *)
Lemma verifyOTP_outcome (now : Z) (secret token : jsstring) (window : optional Z) :
  verifyOTP now secret token window
  = if default 1 window <? 0 then Ok false
    else Throw TypeError_AssignmentToConstant.
Proof.
  destruct window as [w |]; cbn [default from_option id].
  - destruct (Z.ltb_spec w 0).
    + apply verifyOTP_negative_window. assumption.
    + apply verifyOTP_nonneg_window. assumption.
  - apply verifyOTP_default_window.
Qed.

Lemma verifyOTP_never_accepts (now : Z) (secret token : jsstring)
  (window : optional Z) :
  verifyOTP now secret token window <> Ok true.
Proof.
  rewrite verifyOTP_outcome. destruct (default 1 window <? 0); discriminate.
Qed.

(** ** Decimal rendering *)

Lemma decimal_value_snoc (s : jsstring) (c : Z) :
  decimal_value (s ++ [c]) = 10 * decimal_value s + (c - 48).
Proof. unfold decimal_value. rewrite fold_left_app. reflexivity. Qed.

Lemma digits_pos (n : Z) (acc : jsstring) :
  0 < n -> digits n acc = digits (n / 10) (48 + n mod 10 :: acc).
Proof.
  intros H. rewrite digits_equation_1.
  destruct (Z_lt_dec 0 n); [reflexivity | lia].
Qed.

Lemma digits_nonpos (n : Z) (acc : jsstring) : n <= 0 -> digits n acc = acc.
Proof.
  intros H. rewrite digits_equation_1.
  destruct (Z_lt_dec 0 n); [lia | reflexivity].
Qed.

(** The accumulator is a suffix of the result. *)
Lemma digits_acc (n : Z) (acc : jsstring) : digits n acc = digits n [] ++ acc.
Proof.
  assert (Hwf : forall (k : nat) n acc,
             0 <= n < Z.of_nat k -> digits n acc = digits n [] ++ acc).
  { intros k. induction k as [| k IH]; intros m a Hm; [lia |].
    destruct (Z.eq_dec m 0) as [-> | Hne].
    - rewrite !digits_nonpos by lia. reflexivity.
    - rewrite (digits_pos m a), (digits_pos m []) by lia.
      assert (m / 10 < m) by (apply Z.div_lt; lia).
      assert (0 <= m / 10) by (apply Z.div_pos; lia).
      rewrite (IH (m / 10) (_ :: a)), (IH (m / 10) [_]) by lia.
      rewrite <- app_assoc. reflexivity. }
  destruct (Z_lt_dec n 0).
  - rewrite !digits_nonpos by lia. reflexivity.
  - apply (Hwf (Z.to_nat (n + 1))). lia.
Qed.

Lemma digits_step (n : Z) :
  0 < n -> digits n [] = digits (n / 10) [] ++ [48 + n mod 10].
Proof. intros H. rewrite digits_pos by lia. apply digits_acc. Qed.

(** What [digits] produces for a number below [10 ^ k]: at most [k]
    characters, all decimal digits, denoting the number. *)
Lemma digits_below (k : nat) (n : Z) :
  0 <= n < 10 ^ Z.of_nat k ->
  (length (digits n []) <= k)%nat
  /\ Forall is_digit (digits n [])
  /\ decimal_value (digits n []) = n.
Proof.
  revert n. induction k as [| k IH]; intros n Hn.
  - assert (n = 0) by (change (10 ^ Z.of_nat 0) with 1 in Hn; lia). subst n.
    rewrite digits_nonpos by lia. repeat split; [cbn; lia | constructor].
  - destruct (Z.eq_dec n 0) as [-> | Hne].
    + rewrite digits_nonpos by lia. repeat split; [cbn; lia | constructor].
    + rewrite digits_step by lia.
      assert (Hq : 0 <= n / 10 < 10 ^ Z.of_nat k).
      { rewrite Nat2Z.inj_succ, Z.pow_succ_r in Hn by lia.
        split; [apply Z.div_pos; lia | apply Z.div_lt_upper_bound; lia]. }
      destruct (IH _ Hq) as (Hlen & Hall & Hval).
      pose proof (Z.mod_pos_bound n 10 ltac:(lia)).
      repeat split.
      * rewrite length_app. cbn. lia.
      * apply Forall_app. split; [assumption |].
        constructor; [unfold is_digit; lia | constructor].
      * rewrite decimal_value_snoc, Hval.
        pose proof (Z.div_mod n 10 ltac:(lia)). lia.
Qed.

Lemma decimal_value_zeros (k : nat) (s : jsstring) :
  decimal_value (replicate k 48 ++ s) = decimal_value s.
Proof.
  unfold decimal_value. rewrite fold_left_app.
  replace (fold_left _ (replicate k 48) 0) with 0; [reflexivity |].
  induction k as [| k IH]; [reflexivity | cbn; exact IH].
Qed.

(** Line 49 on a number in the range of a remainder by 1000000. *)
Lemma sixDigits_format (v : Z) :
  0 <= v < 1000000 ->
  length (sixDigits (Num v)) = 6%nat
  /\ Forall is_digit (sixDigits (Num v))
  /\ decimal_value (sixDigits (Num v)) = v.
Proof.
  intros Hv.
  assert (Hs : (1 <= length (toString (Num v)) <= 6)%nat
               /\ Forall is_digit (toString (Num v))
               /\ decimal_value (toString (Num v)) = v).
  { destruct v as [| p | p]; [| | lia].
    - cbn. repeat split; try lia.
      constructor; [unfold is_digit, code; cbn; lia | constructor].
    - cbn [toString].
      destruct (digits_below 6 (Z.pos p) ltac:(lia)) as (Hlen & Hall & Hval).
      repeat split; try assumption.
      rewrite digits_step by lia. rewrite length_app. cbn. lia. }
  destruct Hs as ((Hlo & Hhi) & Hall & Hval).
  unfold sixDigits, padStart. repeat split.
  - rewrite length_app, length_replicate. lia.
  - apply Forall_app. split; [| assumption].
    apply Forall_replicate. unfold is_digit, code. cbn. lia.
  - change (code "0") with 48. rewrite decimal_value_zeros. exact Hval.
Qed.

(** ** Dynamic truncation *)

Lemma wrap32_small (z : Z) : - two31 <= z < two31 -> wrap32 z = z.
Proof.
  unfold wrap32, two31, two32. intros H.
  rewrite Z.mod_small by lia. lia.
Qed.

(** Below bit [k] a multiple of [2 ^ k] has no bit, and above it a number
    smaller than [2 ^ k] has none: their [|] is their sum. *)
Lemma lor_disjoint_add (hi lo k : Z) :
  0 <= k -> 0 <= lo < 2 ^ k -> Z.lor (hi * 2 ^ k) lo = hi * 2 ^ k + lo.
Proof.
  intros Hk Hlo.
  assert (Hland : Z.land (hi * 2 ^ k) lo = 0).
  { apply Z.bits_inj'. intros n Hn.
    rewrite Z.land_spec, Z.bits_0.
    destruct (Z_lt_dec n k) as [Hlt | Hge].
    - rewrite Z.mul_pow2_bits_low by lia. reflexivity.
    - destruct (Z.eq_dec lo 0) as [-> | Hne].
      + rewrite Z.bits_0. apply andb_false_r.
      + rewrite (Z.bits_above_log2 lo n); [apply andb_false_r | lia |].
        assert (Z.log2 lo < k) by (apply Z.log2_lt_pow2; lia). lia. }
  rewrite <- Z.lxor_lor by exact Hland.
  symmetry. apply Z.add_nocarry_lxor. exact Hland.
Qed.

(** [b & (2^m - 1)] keeps the low [m] bits of a byte. *)
Lemma bitand_low_bits (b m : Z) :
  0 <= b < 256 -> 0 <= m < 9 ->
  bitand (Num b) (Num (2 ^ m - 1)) = Num (b mod 2 ^ m).
Proof.
  intros Hb Hm. unfold bitand, ToInt32.
  assert (2 ^ m <= 2 ^ 8) by (apply Z.pow_le_mono_r; lia).
  assert (0 < 2 ^ m) by (apply Z.pow_pos_nonneg; lia).
  rewrite !wrap32_small by (unfold two31; lia).
  replace (2 ^ m - 1) with (Z.ones m) by (rewrite Z.ones_equiv; lia).
  rewrite Z.land_ones by lia. reflexivity.
Qed.

(** The four bytes of lines 43-46 combined by the 32-bit operators. *)
Lemma combine_four_bytes (b0 b1 b2 b3 : Z) :
  is_byte b0 -> is_byte b1 -> is_byte b2 -> is_byte b3 ->
  bitor
    (bitor
       (bitor (shl (bitand (Num b0) (Num 0x7f)) (Num 24))
              (shl (bitand (Num b1) (Num 0xff)) (Num 16)))
       (shl (bitand (Num b2) (Num 0xff)) (Num 8)))
    (bitand (Num b3) (Num 0xff))
  = Num ((b0 mod 128) * 2 ^ 24 + b1 * 2 ^ 16 + b2 * 2 ^ 8 + b3).
Proof.
  unfold is_byte. intros H0 H1 H2 H3.
  pose proof bitand_low_bits as Hmask.
  assert (Hshl : forall x k, 0 <= k < 32 -> 0 <= x * 2 ^ k < two31 ->
            0 <= x < two31 ->
            shl (Num x) (Num k) = Num (x * 2 ^ k)).
  { intros x k Hk Hx Hx'. unfold shl, ToInt32.
    rewrite (wrap32_small k) by (unfold two31; lia).
    rewrite (wrap32_small x) by lia.
    rewrite Z.mod_small by lia.
    rewrite Z.shiftl_mul_pow2 by lia.
    rewrite wrap32_small by lia. reflexivity. }
  change 0x7f with (2 ^ 7 - 1). change 0xff with (2 ^ 8 - 1).
  rewrite !Hmask by lia.
  change (2 ^ 7) with 128. change (2 ^ 8) with 256.
  pose proof (Z.mod_pos_bound b0 128 ltac:(lia)) as Hb0.
  rewrite (Z.mod_small b1), (Z.mod_small b2), (Z.mod_small b3) by lia.
  rewrite !Hshl by (unfold two31; lia).
  assert (Hor : forall hi lo k, 0 <= k -> 0 <= lo < 2 ^ k -> 0 <= hi ->
            hi * 2 ^ k + lo < two31 ->
            bitor (Num (hi * 2 ^ k)) (Num lo) = Num (hi * 2 ^ k + lo)).
  { intros hi lo k Hk Hlo Hhi Hsum. unfold bitor, ToInt32.
    assert (0 <= hi * 2 ^ k) by (apply Z.mul_nonneg_nonneg; lia).
    rewrite !wrap32_small by (unfold two31 in *; lia).
    rewrite lor_disjoint_add by lia. reflexivity. }
  rewrite (Hor (b0 mod 128) (b1 * 2 ^ 16) 24) by (unfold two31; lia).
  replace (b0 mod 128 * 2 ^ 24 + b1 * 2 ^ 16)
    with ((b0 mod 128 * 2 ^ 8 + b1) * 2 ^ 16) by lia.
  rewrite (Hor _ (b2 * 2 ^ 8) 16) by (unfold two31; lia).
  replace ((b0 mod 128 * 2 ^ 8 + b1) * 2 ^ 16 + b2 * 2 ^ 8)
    with ((b0 mod 128 * 2 ^ 16 + b1 * 2 ^ 8 + b2) * 2 ^ 8) by lia.
  rewrite (Hor _ b3 8) by (unfold two31; lia).
  f_equal. lia.
Qed.

Lemma Buffer_get_inside (buffer : Buffer) (i : Z) :
  0 <= i < Z.of_nat (length buffer) ->
  Buffer_get buffer (Num i) = Num (buffer !!! Z.to_nat i).
Proof.
  intros Hi. unfold Buffer_get.
  destruct (Z.ltb_spec i 0); [lia |].
  destruct (lookup_lt_is_Some_2 buffer (Z.to_nat i) ltac:(lia)) as [b Hb].
  rewrite Hb. erewrite list_lookup_total_correct by exact Hb. reflexivity.
Qed.

(** Lines 41-47 on a digest of 20 bytes compute the RFC 4226 number
    reduced modulo 1000000. *)
Lemma truncate_spec (hmac : Buffer) :
  length hmac = 20%nat -> Forall is_byte hmac ->
  truncate hmac = Num (truncated31 hmac mod 1000000)
  /\ 0 <= truncated31 hmac < 2 ^ 31.
Proof.
  intros Hlen Hbytes.
  assert (Hb : forall i, (i < 20)%nat -> is_byte (hmac !!! i)).
  { intros i Hi. apply Forall_lookup_total_1; [exact Hbytes | lia]. }
  unfold truncate, truncated31.
  rewrite (Buffer_get_inside hmac 19) by lia.
  change (Z.to_nat 19) with 19%nat.
  pose proof (Hb 19%nat ltac:(lia)) as H19. unfold is_byte in H19.
  change 0xf with (2 ^ 4 - 1). rewrite bitand_low_bits by lia.
  change (2 ^ 4) with 16.
  pose proof (Z.mod_pos_bound (hmac !!! 19%nat) 16 ltac:(lia)) as Hoff.
  set (o := (hmac !!! 19%nat) mod 16) in *.
  cbn [add].
  rewrite !Buffer_get_inside by lia.
  replace (Z.to_nat (o + 1)) with (Z.to_nat o + 1)%nat by lia.
  replace (Z.to_nat (o + 2)) with (Z.to_nat o + 2)%nat by lia.
  replace (Z.to_nat (o + 3)) with (Z.to_nat o + 3)%nat by lia.
  pose proof (Hb (Z.to_nat o) ltac:(lia)) as H0.
  pose proof (Hb (Z.to_nat o + 1)%nat ltac:(lia)) as H1.
  pose proof (Hb (Z.to_nat o + 2)%nat ltac:(lia)) as H2.
  pose proof (Hb (Z.to_nat o + 3)%nat ltac:(lia)) as H3.
  rewrite combine_four_bytes by assumption.
  unfold is_byte in *.
  pose proof (Z.mod_pos_bound (hmac !!! Z.to_nat o) 128 ltac:(lia)).
  set (t := _ + hmac !!! (Z.to_nat o + 3)%nat).
  assert (Ht : 0 <= t < 2 ^ 31) by (subst t; lia).
  split; [| exact Ht].
  unfold rem. cbn [Z.eqb]. rewrite Z.rem_mod_nonneg by lia. reflexivity.
Qed.

(** A digest of [createHmac_sha1] is 20 bytes. *)
Lemma be_bytes_shape (width : nat) (x : Z) :
  length (SHA1.be_bytes width x) = width
  /\ Forall is_byte (SHA1.be_bytes width x).
Proof.
  induction width as [| w [IHl IHf]]; cbn [SHA1.be_bytes].
  - split; [reflexivity | constructor].
  - split; [cbn; rewrite IHl; reflexivity |].
    constructor; [| exact IHf].
    unfold is_byte. apply Z.mod_pos_bound. lia.
Qed.

Lemma digest_shape (msg : list Z) :
  length (SHA1.digest msg) = 20%nat /\ Forall is_byte (SHA1.digest msg).
Proof.
  unfold SHA1.digest.
  destruct (fold_left SHA1.compress _ SHA1.init) as [[[[h0 h1] h2] h3] h4].
  split.
  - rewrite !length_app.
    rewrite !(proj1 (be_bytes_shape 4 _)). reflexivity.
  - repeat (apply Forall_app; split); apply be_bytes_shape.
Qed.

Lemma createHmac_sha1_shape (key message : Buffer) :
  length (createHmac_sha1 key message) = 20%nat
  /\ Forall is_byte (createHmac_sha1 key message).
Proof. unfold createHmac_sha1. apply digest_shape. Qed.

(** Lines 40-49 taken together: whatever the key and the message, the
    string built from the digest has six characters, all decimal digits,
    and denotes the RFC 4226 number modulo 1000000. *)
Lemma digest_to_code_format (key message : Buffer) :
  let hmac := createHmac_sha1 key message in
  let s := sixDigits (truncate hmac) in
  length s = 6%nat
  /\ Forall is_digit s
  /\ decimal_value s = truncated31 hmac mod 1000000
  /\ 0 <= decimal_value s <= 999999.
Proof.
  intros hmac s. subst s.
  destruct (createHmac_sha1_shape key message) as [Hlen Hbytes].
  destruct (truncate_spec hmac Hlen Hbytes) as [-> Hrange].
  pose proof (Z.mod_pos_bound (truncated31 hmac) 1000000 ltac:(lia)) as Hm.
  destruct (sixDigits_format _ Hm) as (H6 & Hd & Hv).
  repeat split; try assumption; lia.
Qed.

(** The test vector of RFC 6238 at 59 seconds, on lines 40-49 alone: the
    key bytes and the eight counter bytes are given directly. *)
Example digest_to_code_rfc6238 :
  sixDigits (truncate (createHmac_sha1 (lit "12345678901234567890")
                                        [0; 0; 0; 0; 0; 0; 0; 1]))
  = lit "287082".
Proof. vm_compute. reflexivity. Qed.

(** ** generateSecretKey *)

Lemma randomInt_range (g : rng) (min max : Z) :
  min < max -> min <= fst (randomInt g min max) < max.
Proof.
  intros H. unfold randomInt. cbn [fst].
  pose proof (Z.mod_pos_bound (g 0%nat) (max - min) ltac:(lia)). lia.
Qed.

Lemma generateSecretKey_loop_done (g : rng) (len i : Z) (secret : jsstring) :
  len <= i -> generateSecretKey_loop g len i secret = secret.
Proof.
  intros H. simp generateSecretKey_loop.
  destruct (Z_lt_dec i len); [lia | reflexivity].
Qed.

(** An index below 32 selects one character of the alphabet. *)
Lemma chars_index (i : Z) :
  0 <= i < 32 ->
  exists c, charAt_or_undefined chars i = [c] /\ in_alphabet c.
Proof.
  intros Hi. unfold charAt_or_undefined.
  destruct (Z.ltb_spec i 0); [lia |].
  destruct (lookup_lt_is_Some_2 chars (Z.to_nat i)) as [c Hc].
  { change (length chars) with 32%nat. lia. }
  rewrite Hc. exists c. split; [reflexivity |].
  unfold in_alphabet. eapply list_elem_of_lookup_2. exact Hc.
Qed.

(** Each turn of the loop appends one character of the alphabet, and the
    loop takes [len - i] turns. *)
Lemma generateSecretKey_loop_spec (g : rng) (len i : Z) (secret : jsstring) :
  i <= len -> Forall in_alphabet secret ->
  Z.of_nat (length (generateSecretKey_loop g len i secret))
  = Z.of_nat (length secret) + (len - i)
  /\ Forall in_alphabet (generateSecretKey_loop g len i secret).
Proof.
  funelim (generateSecretKey_loop g len i secret); intros Hle Hall.
  - clear Heqcall.
    change (Z.of_nat (length chars)) with 32.
    pose proof (randomInt_range g 0 32 ltac:(lia)) as Hrange.
    destruct (randomInt g 0 32) as [randomIndex g'].
    cbn [fst] in Hrange.
    destruct (chars_index randomIndex ltac:(lia)) as (c & Hc & Hin).
    match goal with
    | IH : forall (_ : Z) (_ : rng), _ |- _ =>
        destruct (IH randomIndex g' ltac:(lia)) as [IHlen IHall]
    end.
    + rewrite Hc. apply Forall_app. split; [assumption |].
      constructor; [assumption | constructor].
    + rewrite Hc in *. rewrite length_app in IHlen. cbn [length] in IHlen.
      split; [lia | assumption].
  - split; [lia | assumption].
Qed.

(** ** encodeURIComponent *)

Lemma uriUnescaped_ascii (c : Z) : uriUnescaped c = true -> 0 <= c < 128.
Proof.
  unfold uriUnescaped. intros H.
  repeat (apply orb_true_iff in H; destruct H as [H | H]);
    try (apply andb_true_iff in H; destruct H; lia).
  apply bool_decide_eq_true in H.
  unfold lit in H. cbn in H.
  repeat (apply elem_of_cons in H; destruct H as [-> | H]);
    try (unfold code; cbn; lia).
  inversion H.
Qed.

Lemma uriUnescaped_not_surrogate (c : Z) :
  uriUnescaped c = true ->
  is_high_surrogate c = false /\ is_low_surrogate c = false.
Proof.
  intros H. apply uriUnescaped_ascii in H.
  unfold is_high_surrogate, is_low_surrogate.
  split; apply andb_false_iff; left; apply Z.leb_gt; lia.
Qed.

(** The call returns exactly on well-formed strings, and throws a URIError
    on the others. *)
Lemma encodeURIComponent_defined (s : jsstring) :
  if isWellFormed s
  then exists r, encodeURIComponent s = Ok r
  else encodeURIComponent s = Throw URIError_Malformed.
Proof.
  assert (H : forall (n : nat) s, (length s <= n)%nat ->
            if isWellFormed s
            then exists r, encodeURIComponent s = Ok r
            else encodeURIComponent s = Throw URIError_Malformed).
  { clear s. induction n as [| n IH]; intros [| c rest] Hlen;
      try (cbn in Hlen; lia); try (cbn; eauto; fail).
    cbn [isWellFormed encodeURIComponent].
    assert (Hrest := IH rest ltac:(cbn in Hlen; lia)).
    destruct (uriUnescaped c) eqn:Hu.
    - destruct (uriUnescaped_not_surrogate c Hu) as [-> ->]. cbn.
      destruct (isWellFormed rest).
      + destruct Hrest as [r ->]. cbn. eauto.
      + rewrite Hrest. reflexivity.
    - destruct (is_low_surrogate c) eqn:Hlo.
      + destruct (is_high_surrogate c) eqn:Hhi; [| reflexivity].
        unfold is_high_surrogate, is_low_surrogate in *.
        apply andb_true_iff in Hlo, Hhi. lia.
      + destruct (is_high_surrogate c).
        * destruct rest as [| d rest']; [reflexivity |].
          destruct (is_low_surrogate d); [| reflexivity]. cbn.
          assert (Hrest' := IH rest' ltac:(cbn in Hlen; lia)).
          destruct (isWellFormed rest').
          -- destruct Hrest' as [r ->]. cbn. eauto.
          -- rewrite Hrest'. reflexivity.
        * cbn. destruct (isWellFormed rest).
          -- destruct Hrest as [r ->]. cbn. eauto.
          -- rewrite Hrest. reflexivity. }
  apply (H (length s)). lia.
Qed.

Lemma encodeURIComponent_wellFormed (s : jsstring) :
  isWellFormed s = true -> exists r, encodeURIComponent s = Ok r.
Proof.
  intros H. pose proof (encodeURIComponent_defined s) as Hd.
  rewrite H in Hd. exact Hd.
Qed.

Lemma hexDigit_safe (k : Z) : 0 <= k < 16 -> uri_safe (hexDigit k).
Proof.
  intros Hk. left. unfold hexDigit.
  assert (Hn : (Z.to_nat k < 16)%nat) by lia.
  destruct (Z.to_nat k) as [| n]; [reflexivity |].
  do 15 (destruct n as [| n]; [reflexivity |]). lia.
Qed.

Lemma percentEscape_safe (octet : Z) :
  is_byte octet -> Forall uri_safe (percentEscape octet).
Proof.
  unfold is_byte. intros Ho. unfold percentEscape.
  constructor; [right; reflexivity |].
  constructor.
  { apply hexDigit_safe.
    split; [apply Z.div_pos; lia | apply Z.div_lt_upper_bound; lia]. }
  constructor; [| constructor].
  apply hexDigit_safe. apply Z.mod_pos_bound. lia.
Qed.

Lemma utf8_octets_bytes (cp : Z) :
  0 <= cp < 1114112 -> Forall is_byte (utf8_octets cp).
Proof.
  intros Hcp. unfold utf8_octets, is_byte.
  repeat match goal with
         | |- context [?a <? ?b] => destruct (Z.ltb_spec a b)
         end;
    repeat (constructor; [cbv beta; Z.div_mod_to_equations; lia |]);
    constructor.
Qed.

Lemma escapes_safe (octets : list Z) :
  Forall is_byte octets -> Forall uri_safe (flat_map percentEscape octets).
Proof.
  induction 1 as [| o l Ho _ IH]; cbn [flat_map]; [constructor |].
  apply Forall_app. split; [apply percentEscape_safe; exact Ho | exact IH].
Qed.

Lemma surrogate_pair_range (hi lo : Z) :
  is_high_surrogate hi = true -> is_low_surrogate lo = true ->
  0 <= surrogate_pair hi lo < 1114112.
Proof.
  unfold is_high_surrogate, is_low_surrogate, surrogate_pair.
  intros Hh Hl. apply andb_true_iff in Hh, Hl. lia.
Qed.

(** An encoded component consists of unescaped characters and escapes. *)
Lemma encodeURIComponent_safe (s r : jsstring) :
  Forall is_code_unit s -> encodeURIComponent s = Ok r -> Forall uri_safe r.
Proof.
  assert (H : forall (n : nat) s r, (length s <= n)%nat ->
            Forall is_code_unit s -> encodeURIComponent s = Ok r ->
            Forall uri_safe r).
  { clear s r. induction n as [| n IH]; intros [| c rest] r Hlen Hcu Henc;
      try (cbn in Hlen; lia);
      try (cbn in Henc; injection Henc as <-; constructor).
    apply Forall_cons in Hcu. destruct Hcu as [Hc Hrest].
    cbn [encodeURIComponent] in Henc.
    destruct (uriUnescaped c) eqn:Hu.
    - destruct (encodeURIComponent rest) as [r' |] eqn:Hr'; [| discriminate].
      cbn in Henc. injection Henc as <-.
      constructor; [left; exact Hu |].
      apply (IH rest r'); [cbn in Hlen; lia | exact Hrest | exact Hr'].
    - destruct (is_low_surrogate c); [discriminate |].
      destruct (is_high_surrogate c) eqn:Hhi.
      + destruct rest as [| d rest']; [discriminate |].
        destruct (is_low_surrogate d) eqn:Hlo; [| discriminate].
        apply Forall_cons in Hrest. destruct Hrest as [_ Hrest'].
        destruct (encodeURIComponent rest') as [r' |] eqn:Hr'; [| discriminate].
        cbn in Henc. injection Henc as <-.
        apply Forall_app. split.
        * apply escapes_safe, utf8_octets_bytes, surrogate_pair_range; assumption.
        * apply (IH rest' r'); [cbn in Hlen; lia | exact Hrest' | exact Hr'].
      + destruct (encodeURIComponent rest) as [r' |] eqn:Hr'; [| discriminate].
        cbn in Henc. injection Henc as <-.
        apply Forall_app. split.
        * apply escapes_safe, utf8_octets_bytes.
          unfold is_code_unit in Hc. lia.
        * apply (IH rest r'); [cbn in Hlen; lia | exact Hrest | exact Hr']. }
  intros Hcu Henc. apply (H (length s) s r); [lia | exact Hcu | exact Henc].
Qed.

(** *** encodeURIComponent, code point by code point *)

Lemma escapeCodePoint_unescaped (cp : Z) :
  uriUnescaped cp = true -> escapeCodePoint cp = [cp].
Proof. intros H. unfold escapeCodePoint. rewrite H. reflexivity. Qed.

Lemma escapeCodePoint_escaped (cp : Z) :
  uriUnescaped cp = false ->
  escapeCodePoint cp = flat_map percentEscape (utf8_octets cp).
Proof. intros H. unfold escapeCodePoint. rewrite H. reflexivity. Qed.

Lemma encodeURIComponent_codePoints (s : jsstring) :
  encodeURIComponent s
  = match codePoints s with
    | Some cps => Ok (flat_map escapeCodePoint cps)
    | None => Throw URIError_Malformed
    end.
Proof.
  assert (H : forall (n : nat) s, (length s <= n)%nat ->
            encodeURIComponent s
            = match codePoints s with
              | Some cps => Ok (flat_map escapeCodePoint cps)
              | None => Throw URIError_Malformed
              end).
  { clear s. induction n as [| n IH]; intros [| c rest] Hlen;
      try (cbn in Hlen; lia); try reflexivity.
    cbn [encodeURIComponent codePoints].
    assert (Hrest := IH rest ltac:(cbn in Hlen; lia)).
    destruct (uriUnescaped c) eqn:Hu.
    - destruct (uriUnescaped_not_surrogate c Hu) as [-> ->].
      rewrite Hrest. destruct (codePoints rest) as [cps |]; [| reflexivity].
      cbn -[escapeCodePoint uriUnescaped utf8_octets percentEscape]. rewrite (escapeCodePoint_unescaped c Hu). reflexivity.
    - destruct (is_low_surrogate c) eqn:Hlo.
      + destruct (is_high_surrogate c) eqn:Hhi; [| reflexivity].
        unfold is_high_surrogate, is_low_surrogate in *.
        apply andb_true_iff in Hlo, Hhi. lia.
      + destruct (is_high_surrogate c) eqn:Hhi.
        * destruct rest as [| d rest']; [reflexivity |].
          destruct (is_low_surrogate d) eqn:Hd; [| reflexivity].
          rewrite (IH rest') by (cbn in Hlen; lia).
          destruct (codePoints rest') as [cps |]; [| reflexivity].
          cbn -[escapeCodePoint uriUnescaped utf8_octets percentEscape].
          rewrite escapeCodePoint_escaped; [reflexivity |].
          destruct (uriUnescaped (surrogate_pair c d)) eqn:Hp;
            [| reflexivity].
          apply uriUnescaped_ascii in Hp.
          unfold is_high_surrogate, is_low_surrogate, surrogate_pair in *.
          apply andb_true_iff in Hhi, Hd. lia.
        * rewrite Hrest. destruct (codePoints rest) as [cps |]; [| reflexivity].
          cbn -[escapeCodePoint uriUnescaped utf8_octets percentEscape].
          rewrite (escapeCodePoint_escaped c Hu). reflexivity. }
  apply (H (length s)). lia.
Qed.

(** ** The counter loop under a mutable [time] *)

Lemma pack_loop_let_step (i : Z) (buffer : Buffer) (t : Z) :
  0 <= i ->
  pack_loop i buffer (Binding Let (Num t))
  = pack_loop (i - 1) (Buffer_set buffer i (bitand (Num t) (Num 0xff)))
      (Binding Let (sar (Num t) (Num 8))).
Proof.
  intros Hi. rewrite pack_loop_equation_1.
  destruct (Z_le_dec 0 i); [reflexivity | lia].
Qed.

Lemma pack_loop_exit (i : Z) (buffer : Buffer) (time : binding) :
  i < 0 -> pack_loop i buffer time = Ok (buffer, time).
Proof.
  intros Hi. rewrite pack_loop_equation_1.
  destruct (Z_le_dec 0 i); [lia | reflexivity].
Qed.

Lemma low_byte (t : Z) :
  - two31 <= t < two31 -> ToUint8 (bitand (Num t) (Num 0xff)) = t mod 256.
Proof.
  intros Ht. unfold ToUint8, bitand, ToInt32.
  rewrite !wrap32_small by (unfold two31 in *; lia).
  change 0xff with (Z.ones 8). rewrite Z.land_ones by lia.
  change (2 ^ 8) with 256. apply Z.mod_mod. lia.
Qed.

Lemma sar_8 (t : Z) :
  - two31 <= t < two31 -> sar (Num t) (Num 8) = Num (t / 256).
Proof.
  intros Ht. unfold sar, ToInt32.
  rewrite !wrap32_small by (unfold two31 in *; lia).
  change (8 mod 32) with 8. rewrite Z.shiftr_div_pow2 by lia. reflexivity.
Qed.

(** Were [time] declared with [let], the loop would write the eight
    big-endian bytes of every counter below 2^31. *)
Lemma pack_loop_let_small (counter : Z) :
  0 <= counter < two31 ->
  pack_loop 7 (Buffer_alloc 8) (Binding Let (Num counter))
  = Ok (SHA1.be_bytes 8 counter, Binding Let (Num 0)).
Proof.
  intros Hc. unfold two31 in Hc.
  assert (Hstep : forall i buffer t, 0 <= i -> 0 <= t < 2 ^ 31 ->
            pack_loop i buffer (Binding Let (Num t))
            = pack_loop (i - 1) (<[Z.to_nat i := t mod 256]> buffer)
                (Binding Let (Num (t / 256)))).
  { intros i buffer t Hi Ht. rewrite pack_loop_let_step by lia.
    rewrite sar_8 by (unfold two31; lia).
    unfold Buffer_set. destruct (Z.ltb_spec i 0); [lia |].
    rewrite low_byte by (unfold two31; lia). reflexivity. }
  assert (Hdiv : forall t, 0 <= t < 2 ^ 31 -> 0 <= t / 256 < 2 ^ 31).
  { intros t Ht. Z.div_mod_to_equations. lia. }
  do 8 (rewrite Hstep by (auto 10 using Hdiv with zarith)).
  rewrite pack_loop_exit by lia.
  change (Z.to_nat (7 - 1 - 1 - 1 - 1 - 1 - 1 - 1)) with 0%nat.
  change (Z.to_nat (7 - 1 - 1 - 1 - 1 - 1 - 1)) with 1%nat.
  change (Z.to_nat (7 - 1 - 1 - 1 - 1 - 1)) with 2%nat.
  change (Z.to_nat (7 - 1 - 1 - 1 - 1)) with 3%nat.
  change (Z.to_nat (7 - 1 - 1 - 1)) with 4%nat.
  change (Z.to_nat (7 - 1 - 1)) with 5%nat.
  change (Z.to_nat (7 - 1)) with 6%nat.
  change (Z.to_nat 7) with 7%nat.
  cbn [Buffer_alloc replicate insert list_insert SHA1.be_bytes].
  rewrite !Z.div_div by lia.
  change (256 ^ Z.of_nat 0) with 1. rewrite Z.div_1_r.
  match goal with
  | |- context [Num (counter / ?k)] => rewrite (Z.div_small counter k) by lia
  end.
  reflexivity.
Qed.

(** The operators of the loop work on 32 bits: under a mutable [time] a
    counter of 2^32 + 1 would be written as the counter 1 is. *)
Example pack_loop_let_wraps :
  pack_loop 7 (Buffer_alloc 8) (Binding Let (Num (2 ^ 32 + 1)))
  = pack_loop 7 (Buffer_alloc 8) (Binding Let (Num 1))
  /\ SHA1.be_bytes 8 (2 ^ 32 + 1) = [0; 0; 0; 1; 0; 0; 0; 1]
  /\ SHA1.be_bytes 8 1 = [0; 0; 0; 0; 0; 0; 0; 1].
Proof. vm_compute. repeat split. Qed.

(** * The claims *)

(** C1. At 59 seconds the counter is 1, and the call for the RFC 6238
    secret does not return "287082": it throws at line 32, where
    [Buffer.from] is asked for an encoding it does not have. *)
Theorem generateOTP_known_answer_throws :
  floor_div_1000 59000 30 = Num 1
  /\ generateOTP 59000 rfc6238_secret (Some 30)
     = Throw (TypeError_UnknownEncoding "base32")
  /\ generateOTP 59000 rfc6238_secret (Some 30) <> Ok (lit "287082").
Proof. repeat split. discriminate. Qed.

(** C2. The loop that should write the eight counter bytes never
    completes: [time] is declared with [const], so the first [time >>= 8]
    throws, whatever the counter is (0 and large counters included). *)
Theorem counter_encoding_throws (counter : number) :
  pack_loop 7 (Buffer_alloc 8) (Binding Const counter)
  = Throw TypeError_AssignmentToConstant.
Proof. apply pack_loop_const. lia. Qed.

(** C3, as the code has it.  No argument is validated: a length that is
    not positive gives the empty secret, and a negative window gives
    [false]; both calls return. *)
Theorem no_argument_validation (g : rng) (now : Z) (secret token : jsstring)
  (len window : Z) :
  len <= 0 -> window < 0 ->
  generateSecretKey g (Some len) = Ok []
  /\ verifyOTP now secret token (Some window) = Ok false.
Proof.
  intros Hl Hw. split.
  - unfold generateSecretKey. cbn [default from_option id].
    rewrite generateSecretKey_loop_done by lia. reflexivity.
  - apply verifyOTP_negative_window. exact Hw.
Qed.

Lemma no_argument_validation_witness :
  (-3 <= 0 /\ -2 < 0)
  /\ generateSecretKey (fun _ => 5) (Some (-3)) = Ok []
  /\ verifyOTP 59000 rfc6238_secret (lit "287082") (Some (-2)) = Ok false.
Proof.
  split; [lia |].
  apply (no_argument_validation (fun _ => 5) 59000 rfc6238_secret
           (lit "287082") (-3) (-2)); lia.
Defined.

(** C3 fails at length 0 and at window -1: both calls return, with the
    empty secret and with [false]. *)
Lemma argument_validation_counterexample :
  (generateSecretKey (fun _ => 5) (Some 0) = Ok []
   /\ ~ throws (generateSecretKey (fun _ => 5) (Some 0)))
  /\ (verifyOTP 59000 rfc6238_secret (lit "287082") (Some (-1)) = Ok false
      /\ ~ throws (verifyOTP 59000 rfc6238_secret (lit "287082") (Some (-1)))).
Proof.
  split; (split; [reflexivity |]);
    intros [e He]; vm_compute in He; discriminate.
Qed.

(** C4. Generating a code and verifying it at the same instant with window
    0 does not give [true]: the generation throws, and the verification
    throws for every token. *)
Theorem round_trip_throws (now : Z) (secret : jsstring) :
  (token ← generateOTP now secret None; verifyOTP now secret token (Some 0))
  = Throw (TypeError_UnknownEncoding "base32")
  /\ forall token : jsstring,
       verifyOTP now secret token (Some 0) = Throw TypeError_AssignmentToConstant.
Proof.
  split; [reflexivity |].
  intros token. apply verifyOTP_nonneg_window. lia.
Qed.

(** C5. With a window that is not negative the loop of verifyOTP is
    entered and its first candidate throws: no token is ever accepted or
    rejected, whether it lies inside the window or not. *)
Theorem verifyOTP_window_throws (now : Z) (secret token : jsstring) (window : nat) :
  verifyOTP now secret token (Some (Z.of_nat window))
  = Throw TypeError_AssignmentToConstant.
Proof. apply verifyOTP_nonneg_window. lia. Qed.

(** C6. generateOTP returns no string at all, for no secret, clock reading
    or time step: there is no generated code whose format could be
    checked. *)
Theorem generateOTP_never_returns (now : Z) (secret : jsstring)
  (timeStep : optional Z) :
  throws (generateOTP now secret timeStep)
  /\ ~ exists s : jsstring, generateOTP now secret timeStep = Ok s.
Proof.
  rewrite generateOTP_throws. split.
  - eexists. reflexivity.
  - intros [s Hs]. discriminate.
Qed.

(** C7. A token that is no six-digit string makes verifyOTP throw like any
    other token, with the default window and with window 1. *)
Theorem verifyOTP_malformed_token_throws (now : Z) (secret : jsstring) :
  verifyOTP now secret (lit "12a45") None = Throw TypeError_AssignmentToConstant
  /\ verifyOTP now secret (lit "12a45") (Some 1)
     = Throw TypeError_AssignmentToConstant.
Proof.
  split; [apply verifyOTP_default_window |].
  apply verifyOTP_nonneg_window. lia.
Qed.

(** C10. The two copies of the code computation do not yield the same
    string: neither yields one.  The copy in generateOTP stops at line 32
    (unknown encoding), the copy in verifyOTP at line 70 (assignment to a
    constant), so that the two calls even fail differently. *)
Theorem duplicated_paths_both_throw (now : Z) (secret : jsstring) :
  generateOTP now secret (Some 30) = Throw (TypeError_UnknownEncoding "base32")
  /\ verifyOTP_candidate secret (floor_div_1000 now 30) 0
     = Throw TypeError_AssignmentToConstant
  /\ generateOTP now secret (Some 30)
     <> verifyOTP_candidate secret (floor_div_1000 now 30) 0.
Proof.
  rewrite generateOTP_throws, verifyOTP_candidate_throws.
  repeat split. discriminate.
Qed.

(** C8. For a positive length [n], generateSecretKey returns a string of
    exactly [n] characters, each one of the 32 characters of the Base32
    alphabet, whatever the random source yields. *)
Theorem generateSecretKey_alphabet (g : rng) (n : Z) :
  0 < n ->
  exists secret : jsstring,
    generateSecretKey g (Some n) = Ok secret
    /\ Z.of_nat (length secret) = n
    /\ Forall (fun c => c ∈ lit "ABCDEFGHIJKLMNOPQRSTUVWXYZ234567") secret.
Proof.
  intros Hn. unfold generateSecretKey. cbn [default from_option id].
  eexists. split; [reflexivity |].
  destruct (generateSecretKey_loop_spec g n 0 [] ltac:(lia) ltac:(constructor))
    as [Hlen Hall].
  split; [cbn [length] in Hlen; lia | exact Hall].
Qed.

Lemma generateSecretKey_alphabet_witness :
  0 < 20
  /\ exists secret : jsstring,
       generateSecretKey (fun k => 7 * Z.of_nat k + 3) (Some 20) = Ok secret
       /\ Z.of_nat (length secret) = 20
       /\ Forall (fun c => c ∈ lit "ABCDEFGHIJKLMNOPQRSTUVWXYZ234567") secret.
Proof.
  split; [lia |].
  apply (generateSecretKey_alphabet (fun k => 7 * Z.of_nat k + 3) 20). lia.
Defined.

(** C9, as the code has it.  For names that are well-formed UTF-16,
    generateOtpauthURL returns the text
    otpauth://totp/ISSUER:ACCOUNT?secret=SECRET&issuer=ISSUER
    in which ISSUER and ACCOUNT are the percent-encodings of the issuer and
    of the account name, taken code point by code point, and SECRET is the
    secret itself, unchanged. *)
Theorem generateOtpauthURL_well_formed (secret accountName issuer : jsstring) :
  isWellFormed accountName = true -> isWellFormed issuer = true ->
  exists ci ca : list Z,
    codePoints issuer = Some ci
    /\ codePoints accountName = Some ca
    /\ generateOtpauthURL secret (Some accountName) (Some issuer)
       = Ok (lit "otpauth://totp/" ++ percentEncode ci ++ lit ":"
               ++ percentEncode ca ++ lit "?secret=" ++ secret
               ++ lit "&issuer=" ++ percentEncode ci).
Proof.
  intros Hwa Hwi.
  destruct (encodeURIComponent_wellFormed _ Hwi) as [i Hi].
  destruct (encodeURIComponent_wellFormed _ Hwa) as [a Ha].
  rewrite encodeURIComponent_codePoints in Hi, Ha.
  destruct (codePoints issuer) as [ci |] eqn:Hci; [| discriminate].
  destruct (codePoints accountName) as [ca |] eqn:Hca; [| discriminate].
  exists ci, ca. split; [reflexivity |]. split; [reflexivity |].
  unfold generateOtpauthURL. cbn [default from_option id].
  rewrite !encodeURIComponent_codePoints, Hci, Hca. reflexivity.
Qed.

Lemma generateOtpauthURL_well_formed_witness :
  (isWellFormed (lit "user@example.com") = true
   /\ isWellFormed [0xD83D; 0xDE00; 58; 233] = true)
  /\ exists ci ca : list Z,
       codePoints [0xD83D; 0xDE00; 58; 233] = Some ci
       /\ codePoints (lit "user@example.com") = Some ca
       /\ generateOtpauthURL (lit "JBSWY3DPEHPK3PXP")
            (Some (lit "user@example.com")) (Some [0xD83D; 0xDE00; 58; 233])
          = Ok (lit "otpauth://totp/" ++ percentEncode ci ++ lit ":"
                  ++ percentEncode ca ++ lit "?secret=" ++ lit "JBSWY3DPEHPK3PXP"
                  ++ lit "&issuer=" ++ percentEncode ci).
Proof.
  split; [split; reflexivity |].
  apply (generateOtpauthURL_well_formed (lit "JBSWY3DPEHPK3PXP")
           (lit "user@example.com") [0xD83D; 0xDE00; 58; 233]
           eq_refl eq_refl).
Defined.

(** C9 fails for an issuer that holds a surrogate without its partner:
    the call throws a URIError and returns no text. *)
Lemma generateOtpauthURL_counterexample :
  generateOtpauthURL (lit "JBSWY3DPEHPK3PXP") (Some (lit "user@example.com"))
    (Some [0xD800])
  = Throw URIError_Malformed
  /\ ~ exists uri : jsstring,
        generateOtpauthURL (lit "JBSWY3DPEHPK3PXP")
          (Some (lit "user@example.com")) (Some [0xD800])
        = Ok uri.
Proof.
  split; [reflexivity |].
  intros [uri H]. vm_compute in H. discriminate.
Qed.

(** With well-formed names the call returns, and the two encoded parts
    hold nothing but unescaped characters and escapes. *)
Lemma generateOtpauthURL_returns (secret accountName issuer : jsstring) :
  isWellFormed accountName = true -> isWellFormed issuer = true ->
  Forall is_code_unit accountName -> Forall is_code_unit issuer ->
  exists i a : jsstring,
    generateOtpauthURL secret (Some accountName) (Some issuer)
    = Ok (lit "otpauth://totp/" ++ i ++ lit ":" ++ a ++ lit "?secret="
            ++ secret ++ lit "&issuer=" ++ i)
    /\ encodeURIComponent issuer = Ok i
    /\ encodeURIComponent accountName = Ok a
    /\ Forall uri_safe i /\ Forall uri_safe a.
Proof.
  intros Hwa Hwi Hca Hci.
  destruct (encodeURIComponent_wellFormed _ Hwi) as [i Hi].
  destruct (encodeURIComponent_wellFormed _ Hwa) as [a Ha].
  exists i, a. unfold generateOtpauthURL. cbn [default from_option id].
  rewrite Hi, Ha. cbn.
  repeat split; eauto using encodeURIComponent_safe.
Qed.

Example generateOtpauthURL_readme :
  generateOtpauthURL (lit "JBSWY3DPEHPK3PXP") (Some (lit "user@example.com"))
    (Some (lit "@surajsinh-solanki/easy2faApp"))
  = Ok (lit "otpauth://totp/%40surajsinh-solanki%2Feasy2faApp:user%40example.com?secret=JBSWY3DPEHPK3PXP&issuer=%40surajsinh-solanki%2Feasy2faApp").
Proof. vm_compute. reflexivity. Qed.

Example generateOtpauthURL_defaults :
  generateOtpauthURL (lit "JBSWY3DPEHPK3PXP") None None
  = Ok (lit "otpauth://totp/MyApp:user%40example.com?secret=JBSWY3DPEHPK3PXP&issuer=MyApp").
Proof. vm_compute. reflexivity. Qed.

(** The secret is not encoded: a separator inside it reaches the URI. *)
Example generateOtpauthURL_secret_verbatim :
  generateOtpauthURL (lit "A&B=C") None None
  = Ok (lit "otpauth://totp/MyApp:user%40example.com?secret=A&B=C&issuer=MyApp").
Proof. vm_compute. reflexivity. Qed.

(** An unpaired surrogate in the issuer makes the call throw. *)
Example generateOtpauthURL_lone_surrogate :
  generateOtpauthURL (lit "JBSWY3DPEHPK3PXP") None (Some [0xD800])
  = Throw URIError_Malformed.
Proof. vm_compute. reflexivity. Qed.

(** * Further properties of the four methods *)

(** ** generateSecretKey, draw by draw *)

Lemma drawn_characters_length (g : rng) (n : nat) :
  length (drawn_characters g n) = n.
Proof.
  revert g. induction n as [| n IH]; intros g; cbn; [| rewrite IH]; reflexivity.
Qed.

Lemma drawn_characters_lookup (g : rng) (n k : nat) :
  (k < n)%nat ->
  drawn_characters g n !! k = chars !! Z.to_nat (g k mod 32).
Proof.
  revert g k. induction n as [| n IH]; intros g k Hk; [lia |].
  cbn [drawn_characters]. destruct k as [| k].
  - cbn [lookup list_lookup].
    pose proof (Z.mod_pos_bound (g 0%nat) 32 ltac:(lia)) as Hm.
    destruct (lookup_lt_is_Some_2 chars (Z.to_nat (g 0%nat mod 32))) as [c Hc].
    { change (length chars) with 32%nat. lia. }
    rewrite Hc. f_equal. apply list_lookup_total_correct. exact Hc.
  - cbn [lookup list_lookup]. apply (IH (fun k => g (S k))). lia.
Qed.

(** The loop appends, turn by turn, the characters its draws select. *)
Lemma generateSecretKey_loop_draws (g : rng) (len i : Z) (secret : jsstring) :
  generateSecretKey_loop g len i secret
  = secret ++ drawn_characters g (Z.to_nat (len - i)).
Proof.
  funelim (generateSecretKey_loop g len i secret).
  - clear Heqcall.
    replace (Z.to_nat (len - i)) with (S (Z.to_nat (len - (i + 1)))) by lia.
    cbn [drawn_characters].
    change (Z.of_nat (length chars)) with 32.
    unfold randomInt.
    match goal with
    | IH : forall (_ : Z) (_ : rng), _ |- _ => rewrite IH
    end.
    rewrite <- app_assoc. f_equal.
    replace (0 + g 0%nat mod (32 - 0)) with (g 0%nat mod 32) by (f_equal; lia).
    pose proof (Z.mod_pos_bound (g 0%nat) 32 ltac:(lia)) as Hm.
    unfold charAt_or_undefined.
    destruct (Z.ltb_spec (g 0%nat mod 32) 0); [lia |].
    destruct (lookup_lt_is_Some_2 chars (Z.to_nat (g 0%nat mod 32))) as [c Hc].
    { change (length chars) with 32%nat. lia. }
    rewrite Hc. erewrite list_lookup_total_correct by exact Hc. reflexivity.
  - replace (Z.to_nat (len - i)) with 0%nat by lia.
    cbn. rewrite app_nil_r. reflexivity.
Qed.

(** X1. Whatever the length asked for, generateSecretKey returns: the key
    has as many characters as the length says (none when it is not
    positive), and its k-th character is the character of the alphabet
    that the k-th draw of the random source, reduced modulo 32, selects. *)
Theorem generateSecretKey_draw_by_draw (g : rng) (n : Z) :
  exists key : jsstring,
    generateSecretKey g (Some n) = Ok key
    /\ length key = Z.to_nat n
    /\ forall k : nat, (k < Z.to_nat n)%nat ->
         key !! k = chars !! Z.to_nat (g k mod 32).
Proof.
  unfold generateSecretKey. cbn [default from_option id].
  rewrite generateSecretKey_loop_draws. cbn [app].
  rewrite Z.sub_0_r.
  eexists. split; [reflexivity |]. split.
  - apply drawn_characters_length.
  - intros k Hk. apply drawn_characters_lookup. exact Hk.
Qed.

Lemma drawn_characters_onto (target : jsstring) :
  Forall in_alphabet target ->
  exists g : rng, drawn_characters g (length target) = target.
Proof.
  induction 1 as [| c t Hc _ [g' Hg']].
  - exists (fun _ => 0). reflexivity.
  - apply list_elem_of_lookup_1 in Hc. destruct Hc as [i Hi].
    assert (Hlt : (i < 32)%nat).
    { apply lookup_lt_Some in Hi. exact Hi. }
    exists (fun k => match k with O => Z.of_nat i | S k' => g' k' end).
    cbn [length drawn_characters].
    rewrite Z.mod_small by lia. rewrite Nat2Z.id.
    erewrite list_lookup_total_correct by exact Hi.
    f_equal. exact Hg'.
Qed.

(** X2. Every string over the 32-character alphabet is a possible key:
    some sequence of draws makes generateSecretKey, asked for its length,
    return exactly that string. *)
Theorem generateSecretKey_onto (target : jsstring) :
  Forall (fun c => c ∈ lit "ABCDEFGHIJKLMNOPQRSTUVWXYZ234567") target ->
  exists g : rng,
    generateSecretKey g (Some (Z.of_nat (length target))) = Ok target.
Proof.
  intros Ht. destruct (drawn_characters_onto target Ht) as [g Hg].
  exists g. unfold generateSecretKey. cbn [default from_option id].
  rewrite generateSecretKey_loop_draws. cbn [app].
  rewrite Z.sub_0_r, Nat2Z.id, Hg. reflexivity.
Qed.

Lemma generateSecretKey_onto_witness :
  Forall (fun c => c ∈ lit "ABCDEFGHIJKLMNOPQRSTUVWXYZ234567") (lit "JBSWY3DP")
  /\ exists g : rng,
       generateSecretKey g (Some (Z.of_nat (length (lit "JBSWY3DP"))))
       = Ok (lit "JBSWY3DP").
Proof.
  assert (H : Forall (fun c => c ∈ lit "ABCDEFGHIJKLMNOPQRSTUVWXYZ234567")
                (lit "JBSWY3DP")).
  { apply (bool_decide_unpack _). vm_compute. exact I. }
  split; [exact H |].
  apply (generateSecretKey_onto (lit "JBSWY3DP") H).
Defined.

(** ** verifyOTP, every outcome *)

(** X3. The outcome of verifyOTP depends on the window alone, not on the
    clock, the secret or the token: with a negative window it returns
    [false] without computing any candidate, with any other window (the
    default 1 included) it throws the TypeError of line 70.  It never
    returns [true]. *)
Theorem verifyOTP_all_outcomes (now : Z) (secret token : jsstring)
  (window : optional Z) :
  verifyOTP now secret token window
  = (if default 1 window <? 0 then Ok false
     else Throw TypeError_AssignmentToConstant)
  /\ verifyOTP now secret token window <> Ok true.
Proof.
  split; [apply verifyOTP_outcome |].
  rewrite verifyOTP_outcome. destruct (default 1 window <? 0); discriminate.
Qed.

(** ** generateOtpauthURL *)

Lemma encodeURIComponent_unescaped (s : jsstring) :
  Forall is_unescaped s -> encodeURIComponent s = Ok s.
Proof.
  induction 1 as [| c rest Hc _ IH]; [reflexivity |].
  cbn [encodeURIComponent]. unfold is_unescaped in Hc. rewrite Hc, IH.
  reflexivity.
Qed.

Lemma alphabet_unescaped (c : Z) : in_alphabet c -> is_unescaped c.
Proof.
  unfold in_alphabet, chars, lit. cbn [list_ascii_of_string map]. intros H.
  repeat (apply elem_of_cons in H; destruct H as [-> | H]);
    try reflexivity.
  inversion H.
Qed.

Lemma drawn_characters_alphabet (g : rng) (n : nat) :
  Forall in_alphabet (drawn_characters g n).
Proof.
  revert g. induction n as [| n IH]; intros g; cbn [drawn_characters];
    constructor; [| apply IH].
  pose proof (Z.mod_pos_bound (g 0%nat) 32 ltac:(lia)) as Hm.
  destruct (lookup_lt_is_Some_2 chars (Z.to_nat (g 0%nat mod 32))) as [c Hc].
  { change (length chars) with 32%nat. lia. }
  erewrite list_lookup_total_correct by exact Hc.
  unfold in_alphabet. eapply list_elem_of_lookup_2. exact Hc.
Qed.

(** X4. A key made by generateSecretKey needs no escaping: for every
    random source and every length, [encodeURIComponent] leaves the key
    as it is, so the key that generateOtpauthURL inserts verbatim is also
    what encoding it would have given; with the default names the URI is
    otpauth://totp/MyApp:user%40example.com?secret=KEY&issuer=MyApp. *)
Theorem generated_key_in_otpauth_url (g : rng) (n : Z) :
  exists key : jsstring,
    generateSecretKey g (Some n) = Ok key
    /\ encodeURIComponent key = Ok key
    /\ generateOtpauthURL key None None
       = Ok (lit "otpauth://totp/MyApp:user%40example.com?secret=" ++ key
               ++ lit "&issuer=MyApp").
Proof.
  unfold generateSecretKey. cbn [default from_option id].
  rewrite generateSecretKey_loop_draws. cbn [app].
  eexists. split; [reflexivity |]. split; [| reflexivity].
  apply encodeURIComponent_unescaped.
  eapply Forall_impl; [apply drawn_characters_alphabet |].
  intros c Hc. apply alphabet_unescaped. exact Hc.
Qed.

(** X5. Names made only of letters, digits and [- _ . ! ~ * ' ( )] reach
    the URI unchanged: the call returns
    otpauth://totp/ISSUER:ACCOUNT?secret=SECRET&issuer=ISSUER with the
    issuer and the account name exactly as they were given. *)
Theorem generateOtpauthURL_plain_names (secret accountName issuer : jsstring) :
  Forall is_unescaped accountName -> Forall is_unescaped issuer ->
  generateOtpauthURL secret (Some accountName) (Some issuer)
  = Ok (lit "otpauth://totp/" ++ issuer ++ lit ":" ++ accountName
          ++ lit "?secret=" ++ secret ++ lit "&issuer=" ++ issuer).
Proof.
  intros Ha Hi. unfold generateOtpauthURL. cbn [default from_option id].
  rewrite (encodeURIComponent_unescaped _ Hi).
  rewrite (encodeURIComponent_unescaped _ Ha). reflexivity.
Qed.

Lemma generateOtpauthURL_plain_names_witness :
  (Forall is_unescaped (lit "alice") /\ Forall is_unescaped (lit "MyApp"))
  /\ generateOtpauthURL (lit "JBSWY3DPEHPK3PXP") (Some (lit "alice"))
       (Some (lit "MyApp"))
     = Ok (lit "otpauth://totp/" ++ lit "MyApp" ++ lit ":" ++ lit "alice"
             ++ lit "?secret=" ++ lit "JBSWY3DPEHPK3PXP" ++ lit "&issuer="
             ++ lit "MyApp").
Proof.
  assert (Ha : Forall is_unescaped (lit "alice"))
    by (repeat (constructor; [reflexivity |]); constructor).
  assert (Hi : Forall is_unescaped (lit "MyApp"))
    by (repeat (constructor; [reflexivity |]); constructor).
  split; [split; assumption |].
  apply (generateOtpauthURL_plain_names (lit "JBSWY3DPEHPK3PXP") (lit "alice")
           (lit "MyApp") Ha Hi).
Defined.

(** X6. generateOtpauthURL returns exactly when the issuer and the account
    name are well-formed UTF-16; when either holds a surrogate without its
    partner the call throws a URIError, whatever the secret is. *)
Theorem generateOtpauthURL_returns_or_throws (secret accountName issuer : jsstring) :
  if isWellFormed issuer && isWellFormed accountName
  then exists uri : jsstring,
         generateOtpauthURL secret (Some accountName) (Some issuer) = Ok uri
  else generateOtpauthURL secret (Some accountName) (Some issuer)
       = Throw URIError_Malformed.
Proof.
  unfold generateOtpauthURL. cbn [default from_option id].
  pose proof (encodeURIComponent_defined issuer) as Hi.
  pose proof (encodeURIComponent_defined accountName) as Ha.
  destruct (isWellFormed issuer); cbn [andb].
  - destruct Hi as [i ->].
    destruct (isWellFormed accountName).
    + destruct Ha as [a ->]. cbn. eauto.
    + rewrite Ha. reflexivity.
  - rewrite Hi. reflexivity.
Qed.

(** *** Distinct names give distinct encodings *)

Lemma codeUnits_single (cp : Z) : cp < 65536 -> codeUnits cp = [cp].
Proof.
  intros H. unfold codeUnits. destruct (Z.ltb_spec cp 65536); [reflexivity | lia].
Qed.

Lemma codeUnits_pair (hi lo : Z) :
  is_high_surrogate hi = true -> is_low_surrogate lo = true ->
  codeUnits (surrogate_pair hi lo) = [hi; lo].
Proof.
  unfold is_high_surrogate, is_low_surrogate, surrogate_pair, codeUnits.
  intros Hh Hl. apply andb_true_iff in Hh, Hl.
  destruct (Z.ltb_spec (65536 + (hi - 55296) * 1024 + (lo - 56320)) 65536);
    [lia |].
  replace (55296 + (65536 + (hi - 55296) * 1024 + (lo - 56320) - 65536) / 1024)
    with hi by (Z.div_mod_to_equations; lia).
  replace (56320 + (65536 + (hi - 55296) * 1024 + (lo - 56320) - 65536) mod 1024)
    with lo by (Z.div_mod_to_equations; lia).
  reflexivity.
Qed.

(** A string of code units is the UTF-16 text of its code points. *)
Lemma codePoints_codeUnits (s : jsstring) (cps : list Z) :
  Forall is_code_unit s -> codePoints s = Some cps ->
  s = flat_map codeUnits cps /\ Forall is_code_point cps.
Proof.
  assert (H : forall (n : nat) s cps, (length s <= n)%nat ->
            Forall is_code_unit s -> codePoints s = Some cps ->
            s = flat_map codeUnits cps /\ Forall is_code_point cps).
  { clear s cps. induction n as [| n IH]; intros [| c rest] cps Hlen Hcu Hcp;
      try (cbn in Hlen; lia);
      try (cbn in Hcp; injection Hcp as <-; split; [reflexivity | constructor]).
    apply Forall_cons in Hcu. destruct Hcu as [Hc Hrest].
    unfold is_code_unit in Hc.
    cbn [codePoints] in Hcp.
    destruct (is_high_surrogate c) eqn:Hhi.
    - destruct rest as [| d rest']; [discriminate |].
      destruct (is_low_surrogate d) eqn:Hd; [| discriminate].
      apply Forall_cons in Hrest. destruct Hrest as [_ Hrest'].
      destruct (codePoints rest') as [cps' |] eqn:Hcps'; [| discriminate].
      cbn in Hcp. injection Hcp as <-.
      destruct (IH rest' cps' ltac:(cbn in Hlen; lia) Hrest' Hcps') as [-> Hv].
      split; [| constructor;
                 [apply surrogate_pair_range; assumption | assumption]].
      cbn [flat_map]. rewrite codeUnits_pair by assumption. reflexivity.
    - destruct (is_low_surrogate c) eqn:Hlo; [discriminate |].
      destruct (codePoints rest) as [cps' |] eqn:Hcps'; [| discriminate].
      cbn in Hcp. injection Hcp as <-.
      destruct (IH rest cps' ltac:(cbn in Hlen; lia) Hrest Hcps') as [-> Hv].
      split; [| constructor; [unfold is_code_point; lia | assumption]].
      cbn [flat_map]. rewrite codeUnits_single by lia. reflexivity. }
  intros Hcu Hcp. apply (H (length s)); [lia | assumption | assumption].
Qed.

Lemma hex_value_hexDigit (k : Z) :
  0 <= k < 16 -> hex_value (hexDigit k) = Some k.
Proof.
  intros Hk. unfold hexDigit.
  assert (Hn : (Z.to_nat k < 16)%nat) by lia.
  replace k with (Z.of_nat (Z.to_nat k)) at 2 by lia.
  destruct (Z.to_nat k) as [| n]; [reflexivity |].
  do 15 (destruct n as [| n]; [reflexivity |]). lia.
Qed.

(** Two bytes with the same two hex digits are the same byte. *)
Lemma hexDigits_inj (o o' : Z) :
  is_byte o -> is_byte o' ->
  hexDigit (o / 16) = hexDigit (o' / 16) ->
  hexDigit (o mod 16) = hexDigit (o' mod 16) ->
  o = o'.
Proof.
  unfold is_byte. intros Ho Ho' Hhi Hlo.
  apply (f_equal hex_value) in Hhi, Hlo.
  rewrite !hex_value_hexDigit in Hhi, Hlo
    by (Z.div_mod_to_equations; lia).
  injection Hhi as Hhi. injection Hlo as Hlo.
  Z.div_mod_to_equations. lia.
Qed.

(** No encoding of a code point is the beginning of another one's. *)
Lemma escapeCodePoint_prefix_inj (cp1 cp2 : Z) (x y : jsstring) :
  is_code_point cp1 -> is_code_point cp2 ->
  escapeCodePoint cp1 ++ x = escapeCodePoint cp2 ++ y ->
  cp1 = cp2 /\ x = y.
Proof.
  unfold is_code_point. intros H1 H2 H.
  unfold escapeCodePoint in H.
  destruct (uriUnescaped cp1) eqn:Hu1, (uriUnescaped cp2) eqn:Hu2.
  - injection H as -> ->. split; reflexivity.
  - exfalso. unfold utf8_octets in H.
    repeat match type of H with
           | context [?a <? ?b] => destruct (Z.ltb_spec a b)
           end;
      cbn [flat_map percentEscape app] in H; injection H as -> _;
      discriminate Hu1.
  - exfalso. unfold utf8_octets in H.
    repeat match type of H with
           | context [?a <? ?b] => destruct (Z.ltb_spec a b)
           end;
      cbn [flat_map percentEscape app] in H; injection H as <- _;
      discriminate Hu2.
  - unfold utf8_octets in H.
    repeat match type of H with
           | context [?a <? ?b] => destruct (Z.ltb_spec a b)
           end;
      cbn [flat_map percentEscape app] in H; injection H; intros;
      repeat match goal with
             | Ha : hexDigit (?o / 16) = hexDigit (?o' / 16),
               Hb : hexDigit (?o mod 16) = hexDigit (?o' mod 16) |- _ =>
                 let E := fresh "E" in
                 assert (E : o = o')
                   by (apply hexDigits_inj;
                       [unfold is_byte; Z.div_mod_to_equations; lia
                       |unfold is_byte; Z.div_mod_to_equations; lia
                       |exact Ha | exact Hb]);
                 clear Ha Hb
             end;
      try (exfalso; Z.div_mod_to_equations; lia);
      (split; [Z.div_mod_to_equations; lia | assumption]).
Qed.

Lemma escapeCodePoint_nonempty (cp : Z) : escapeCodePoint cp <> [].
Proof.
  unfold escapeCodePoint, utf8_octets.
  destruct (uriUnescaped cp); [discriminate |].
  repeat match goal with
         | |- context [?a <? ?b] => destruct (Z.ltb_spec a b)
         end; discriminate.
Qed.

Lemma escapeCodePoints_inj (l1 l2 : list Z) :
  Forall is_code_point l1 -> Forall is_code_point l2 ->
  flat_map escapeCodePoint l1 = flat_map escapeCodePoint l2 -> l1 = l2.
Proof.
  intros H1. revert l2.
  induction H1 as [| cp1 l1 Hcp1 _ IH]; intros [| cp2 l2] H2 H.
  - reflexivity.
  - cbn [flat_map] in H. symmetry in H. apply app_eq_nil in H.
    destruct H as [H _]. destruct (escapeCodePoint_nonempty _ H).
  - cbn [flat_map] in H. apply app_eq_nil in H.
    destruct H as [H _]. destruct (escapeCodePoint_nonempty _ H).
  - apply Forall_cons in H2. destruct H2 as [Hcp2 H2].
    cbn [flat_map] in H.
    destruct (escapeCodePoint_prefix_inj _ _ _ _ Hcp1 Hcp2 H) as [-> Hrest].
    f_equal. apply IH; assumption.
Qed.

(** Two strings of code units with the same encoding are the same. *)
Lemma encodeURIComponent_inj (s t r : jsstring) :
  Forall is_code_unit s -> Forall is_code_unit t ->
  encodeURIComponent s = Ok r -> encodeURIComponent t = Ok r -> s = t.
Proof.
  intros Hs Ht Es Et.
  rewrite encodeURIComponent_codePoints in Es, Et.
  destruct (codePoints s) as [ls |] eqn:Hls; [| discriminate].
  destruct (codePoints t) as [lt |] eqn:Hlt; [| discriminate].
  injection Es as Es. injection Et as Et.
  destruct (codePoints_codeUnits s ls Hs Hls) as [-> Vs].
  destruct (codePoints_codeUnits t lt Ht Hlt) as [-> Vt].
  f_equal. apply escapeCodePoints_inj; [assumption | assumption | congruence].
Qed.

Lemma uri_safe_not_separator (c : Z) :
  uri_safe c -> (c ∉ lit ":/?#&=") /\ 0 <= c < 128.
Proof.
  intros [Hu | ->].
  - split; [| apply uriUnescaped_ascii; exact Hu].
    intros Hin. unfold lit in Hin. cbn in Hin.
    repeat (apply elem_of_cons in Hin; destruct Hin as [-> | Hin]);
      try discriminate Hu.
    inversion Hin.
  - split; [| unfold code; cbn; lia].
    intros Hin. unfold lit in Hin. cbn in Hin.
    repeat (apply elem_of_cons in Hin; destruct Hin as [Hin | Hin]);
      try discriminate Hin.
    inversion Hin.
Qed.

(** A text is cut in one way only at a separator its first part lacks. *)
Lemma app_separator_inj (sep : Z) (a a' x x' : jsstring) :
  sep ∉ a -> sep ∉ a' -> a ++ sep :: x = a' ++ sep :: x' -> a = a' /\ x = x'.
Proof.
  revert a'. induction a as [| c a IH]; intros [| c' a'] Ha Ha' H; cbn in H.
  - injection H as ->. split; reflexivity.
  - injection H as -> _. destruct Ha'. apply elem_of_cons. left. reflexivity.
  - injection H as -> _. destruct Ha. apply elem_of_cons. left. reflexivity.
  - injection H as -> H.
    destruct (IH a') as [-> ->]; [| | exact H | split; reflexivity].
    + intros Hin. apply Ha. apply elem_of_cons. right. exact Hin.
    + intros Hin. apply Ha'. apply elem_of_cons. right. exact Hin.
Qed.

(** X7. For well-formed names the call returns, and the two encoded parts
    of the URI hold ASCII characters only and none of [: / ? # & =]: the
    separators of the URI are those of the template and of the secret. *)
Theorem generateOtpauthURL_encoded_parts (secret accountName issuer : jsstring) :
  isWellFormed accountName = true -> isWellFormed issuer = true ->
  Forall is_code_unit accountName -> Forall is_code_unit issuer ->
  exists i a : jsstring,
    generateOtpauthURL secret (Some accountName) (Some issuer)
    = Ok (lit "otpauth://totp/" ++ i ++ lit ":" ++ a ++ lit "?secret="
            ++ secret ++ lit "&issuer=" ++ i)
    /\ Forall (fun c => (c ∉ lit ":/?#&=") /\ 0 <= c < 128) i
    /\ Forall (fun c => (c ∉ lit ":/?#&=") /\ 0 <= c < 128) a.
Proof.
  intros Hwa Hwi Hca Hci.
  destruct (generateOtpauthURL_returns secret accountName issuer Hwa Hwi Hca Hci)
    as (i & a & Huri & _ & _ & Hi & Ha).
  exists i, a. split; [exact Huri |].
  split; (eapply Forall_impl; [eassumption |]);
    intros c Hc; apply uri_safe_not_separator; exact Hc.
Qed.

Lemma generateOtpauthURL_encoded_parts_witness :
  (isWellFormed (lit "user@example.com") = true
   /\ isWellFormed [0xD83D; 0xDE00; 58] = true
   /\ Forall is_code_unit (lit "user@example.com")
   /\ Forall is_code_unit [0xD83D; 0xDE00; 58])
  /\ exists i a : jsstring,
       generateOtpauthURL (lit "JBSWY3DPEHPK3PXP") (Some (lit "user@example.com"))
         (Some [0xD83D; 0xDE00; 58])
       = Ok (lit "otpauth://totp/" ++ i ++ lit ":" ++ a ++ lit "?secret="
               ++ lit "JBSWY3DPEHPK3PXP" ++ lit "&issuer=" ++ i)
       /\ Forall (fun c => (c ∉ lit ":/?#&=") /\ 0 <= c < 128) i
       /\ Forall (fun c => (c ∉ lit ":/?#&=") /\ 0 <= c < 128) a.
Proof.
  assert (Ha : Forall is_code_unit (lit "user@example.com"))
    by (repeat (constructor; [unfold is_code_unit, code; cbn; lia |]);
        constructor).
  assert (Hi : Forall is_code_unit [0xD83D; 0xDE00; 58])
    by (repeat (constructor; [unfold is_code_unit; lia |]); constructor).
  split; [repeat split; try reflexivity; assumption |].
  apply (generateOtpauthURL_encoded_parts (lit "JBSWY3DPEHPK3PXP")
           (lit "user@example.com") [0xD83D; 0xDE00; 58]
           eq_refl eq_refl Ha Hi).
Defined.

(** X8. Different arguments never give the same URI: when two calls on
    strings of code units return the same text, they were given the same
    secret, the same account name and the same issuer. *)
Theorem generateOtpauthURL_injective
  (secret accountName issuer secret' accountName' issuer' uri : jsstring) :
  Forall is_code_unit accountName -> Forall is_code_unit issuer ->
  Forall is_code_unit accountName' -> Forall is_code_unit issuer' ->
  generateOtpauthURL secret (Some accountName) (Some issuer) = Ok uri ->
  generateOtpauthURL secret' (Some accountName') (Some issuer') = Ok uri ->
  secret = secret' /\ accountName = accountName' /\ issuer = issuer'.
Proof.
  intros Ha Hi Ha' Hi' H H'.
  unfold generateOtpauthURL in H, H'. cbn [default from_option id] in H, H'.
  destruct (encodeURIComponent issuer) as [ei |] eqn:Ei; [| discriminate].
  destruct (encodeURIComponent accountName) as [ea |] eqn:Ea; [| discriminate].
  destruct (encodeURIComponent issuer') as [ei' |] eqn:Ei'; [| discriminate].
  destruct (encodeURIComponent accountName') as [ea' |] eqn:Ea'; [| discriminate].
  cbv beta iota delta [mbind JS_bind] in H, H'.
  injection H as H. injection H' as H'.
  rewrite <- H' in H. clear H' uri.
  repeat (injection H as H).
  assert (Hsep : forall s e sep, Forall is_code_unit s ->
            encodeURIComponent s = Ok e -> sep ∈ lit ":/?#&=" -> sep ∉ e).
  { intros s e sep Hs He Hsep Hin.
    pose proof (encodeURIComponent_safe s e Hs He) as Hsafe.
    rewrite Forall_forall in Hsafe.
    destruct (uri_safe_not_separator sep (Hsafe sep Hin)) as [Hn _].
    exact (Hn Hsep). }
  assert (Hcolon : code ":" ∈ lit ":/?#&=")
    by (apply (bool_decide_unpack _); vm_compute; exact I).
  assert (Hquery : code "?" ∈ lit ":/?#&=")
    by (apply (bool_decide_unpack _); vm_compute; exact I).
  pose proof (Hsep _ _ _ Hi Ei Hcolon) as Hn.
  pose proof (Hsep _ _ _ Hi' Ei' Hcolon) as Hn'.
  destruct (app_separator_inj _ _ _ _ _ Hn Hn' H) as [<- H1].
  pose proof (Hsep _ _ _ Ha Ea Hquery) as Hm.
  pose proof (Hsep _ _ _ Ha' Ea' Hquery) as Hm'.
  destruct (app_separator_inj _ _ _ _ _ Hm Hm' H1) as [<- H2].
  repeat (injection H2 as H2).
  apply app_inv_tail in H2.
  split; [exact H2 |]. split.
  - apply (encodeURIComponent_inj _ _ ea); assumption.
  - apply (encodeURIComponent_inj _ _ ei); assumption.
Qed.

Lemma generateOtpauthURL_injective_witness :
  (Forall is_code_unit (lit "a@b") /\ Forall is_code_unit (lit "My App")
   /\ generateOtpauthURL (lit "JBSWY3DP") (Some (lit "a@b")) (Some (lit "My App"))
      = Ok (lit "otpauth://totp/My%20App:a%40b?secret=JBSWY3DP&issuer=My%20App"))
  /\ (lit "JBSWY3DP" = lit "JBSWY3DP" /\ lit "a@b" = lit "a@b"
      /\ lit "My App" = lit "My App").
Proof.
  assert (Ha : Forall is_code_unit (lit "a@b"))
    by (repeat (constructor; [unfold is_code_unit, code; cbn; lia |]);
        constructor).
  assert (Hi : Forall is_code_unit (lit "My App"))
    by (repeat (constructor; [unfold is_code_unit, code; cbn; lia |]);
        constructor).
  split; [repeat split; try assumption; reflexivity |].
  apply (generateOtpauthURL_injective (lit "JBSWY3DP") (lit "a@b") (lit "My App")
           (lit "JBSWY3DP") (lit "a@b") (lit "My App")
           (lit "otpauth://totp/My%20App:a%40b?secret=JBSWY3DP&issuer=My%20App")
           Ha Hi Ha Hi eq_refl eq_refl).
Defined.

(** ** From the digest to the code (lines 41-49 and 75-83) *)

(** X9. Lines 41-49, run on any digest of 20 bytes, give a string of
    exactly six decimal digits, and the number it denotes is the 31-bit
    value of RFC 4226 (four bytes at the offset given by the low four bits
    of the last byte, top bit dropped) modulo 1000000. *)
Theorem code_of_digest (hmac : Buffer) :
  length hmac = 20%nat -> Forall is_byte hmac ->
  length (sixDigits (truncate hmac)) = 6%nat
  /\ Forall is_digit (sixDigits (truncate hmac))
  /\ decimal_value (sixDigits (truncate hmac)) = truncated31 hmac mod 1000000.
Proof.
  intros Hlen Hbytes.
  destruct (truncate_spec hmac Hlen Hbytes) as [-> _].
  apply sixDigits_format. apply Z.mod_pos_bound. lia.
Qed.

Lemma code_of_digest_witness :
  let hmac := [117; 164; 138; 25; 212; 203; 225; 0; 100; 78;
               138; 193; 57; 126; 234; 116; 122; 45; 51; 171] in
  (length hmac = 20%nat /\ Forall is_byte hmac)
  /\ length (sixDigits (truncate hmac)) = 6%nat
  /\ Forall is_digit (sixDigits (truncate hmac))
  /\ decimal_value (sixDigits (truncate hmac)) = truncated31 hmac mod 1000000.
Proof.
  intros hmac.
  assert (Hb : Forall is_byte hmac)
    by (repeat (constructor; [unfold is_byte; lia |]); constructor).
  split; [split; [reflexivity | exact Hb] |].
  apply (code_of_digest hmac eq_refl Hb).
Defined.

(** X10. On a digest of 20 bytes the reads of lines 41-46 stay inside the
    buffer: the offset [hmac[19] & 0xf] lies between 0 and 15, and each of
    [hmac[offset]] ... [hmac[offset + 3]] is a byte of the digest, never
    [undefined]. *)
Theorem truncate_reads_inside (hmac : Buffer) :
  length hmac = 20%nat -> Forall is_byte hmac ->
  exists offset : Z,
    bitand (Buffer_get hmac (Num 19)) (Num 0xf) = Num offset
    /\ 0 <= offset <= 15
    /\ forall k : Z, 0 <= k <= 3 ->
         exists b : Z,
           Buffer_get hmac (add (Num offset) (Num k)) = Num b
           /\ hmac !! Z.to_nat (offset + k) = Some b
           /\ is_byte b.
Proof.
  intros Hlen Hbytes.
  assert (H19 : is_byte (hmac !!! 19%nat))
    by (apply Forall_lookup_total_1; [exact Hbytes | lia]).
  unfold is_byte in H19.
  exists ((hmac !!! 19%nat) mod 16).
  pose proof (Z.mod_pos_bound (hmac !!! 19%nat) 16 ltac:(lia)) as Hoff.
  split.
  - rewrite (Buffer_get_inside hmac 19) by lia.
    change (Z.to_nat 19) with 19%nat.
    change 0xf with (2 ^ 4 - 1). rewrite bitand_low_bits by lia. reflexivity.
  - split; [lia |]. intros k Hk. cbn [add].
    set (o := (hmac !!! 19%nat) mod 16) in *.
    assert (Hin : (Z.to_nat (o + k) < length hmac)%nat) by lia.
    destruct (lookup_lt_is_Some_2 hmac _ Hin) as [b Hb].
    exists b. split; [| split; [exact Hb |]].
    + rewrite Buffer_get_inside by lia.
      erewrite list_lookup_total_correct by exact Hb. reflexivity.
    + eapply Forall_lookup_1; eassumption.
Qed.

Lemma truncate_reads_inside_witness :
  let hmac := [117; 164; 138; 25; 212; 203; 225; 0; 100; 78;
               138; 193; 57; 126; 234; 116; 122; 45; 51; 171] in
  (length hmac = 20%nat /\ Forall is_byte hmac)
  /\ exists offset : Z,
       bitand (Buffer_get hmac (Num 19)) (Num 0xf) = Num offset
       /\ 0 <= offset <= 15
       /\ forall k : Z, 0 <= k <= 3 ->
            exists b : Z,
              Buffer_get hmac (add (Num offset) (Num k)) = Num b
              /\ hmac !! Z.to_nat (offset + k) = Some b
              /\ is_byte b.
Proof.
  intros hmac.
  assert (Hb : Forall is_byte hmac)
    by (repeat (constructor; [unfold is_byte; lia |]); constructor).
  split; [split; [reflexivity | exact Hb] |].
  apply (truncate_reads_inside hmac eq_refl Hb).
Defined.

(** The URI of an issuer with a character outside the Basic Multilingual
    Plane, a colon and an accented letter. *)
Example generateOtpauthURL_escapes :
  generateOtpauthURL (lit "JBSWY3DPEHPK3PXP") (Some (lit "user@example.com"))
    (Some [0xD83D; 0xDE00; 58; 233])
  = Ok (lit "otpauth://totp/%F0%9F%98%80%3A%C3%A9:user%40example.com?secret=JBSWY3DPEHPK3PXP&issuer=%F0%9F%98%80%3A%C3%A9").
Proof. vm_compute. reflexivity. Qed.
